(** * NHL Stats Analyzer: the stat-derivation engine of [app.py]

    A shallow embedding of the helper functions, the selection list and the
    per-selection processing loop of [app.py], followed by the properties of
    the specification that are stated about them.

    Modelling conventions.
    - Python strings are sequences of code points; the model carries the
      code points below 256 in [string].
    - Integers of the feed (goals, shots, ...) are [Z].  Columns of a
      DataFrame that hold such integers are modelled without the 64-bit
      wrap-around of numpy: the sums of a season's boxscore figures are far
      from 2^63.
    - Floating-point results are modelled by the exact rational [Q] they
      round; rounding, overflow and the limit on the length of a decimal
      literal are outside the model.  The float NaN and Python's [None] are
      explicit constructors.
    - Exceptions are values of [exn] carried by the [result] monad. *)

From Stdlib Require Import ZArith QArith Lia Lqa Bool List String Ascii.
From Stdlib Require Import Sorting.Sorted Sorting.Permutation.
From Stdlib Require DecimalString DecimalPos DecimalZ.
Import ListNotations.

Local Open Scope Z_scope.

(* ------------------------------------------------------------------ *)
(** ** Exceptions *)

Inductive exn : Type :=
| KeyError (key : string)
| ValueError
| AttributeError
| IndexError
| ZeroDivisionError.

Inductive result (A : Type) : Type :=
| Ok (a : A)
| Raise (e : exn).

Arguments Ok {A} a.
Arguments Raise {A} e.

Definition bind {A B : Type} (r : result A) (k : A -> result B) : result B :=
  match r with
  | Ok a => k a
  | Raise e => Raise e
  end.

Notation "x <- r ;; k" := (bind r (fun x => k))
  (at level 61, r at next level, right associativity).

(** [try: body except: handler], with a bare [except]. *)
Definition try_except {A : Type} (body : result A) (handler : A) : result A :=
  match body with
  | Ok a => Ok a
  | Raise _ => Ok handler
  end.

Fixpoint mapM {A B : Type} (f : A -> result B) (l : list A) : result (list B) :=
  match l with
  | [] => Ok []
  | a :: t => b <- f a ;; bs <- mapM f t ;; Ok (b :: bs)
  end.

(* ------------------------------------------------------------------ *)
(** ** Python values that reach [parse_toi] *)

Inductive pyobj : Type :=
| PyNone
| PyNaN
| PyStr (s : string).

(** Truth value of an object, as tested by [not toi_str]. *)
Definition truthy (o : pyobj) : bool :=
  match o with
  | PyNone => false
  | PyNaN => true
  | PyStr EmptyString => false
  | PyStr _ => true
  end.

(* ------------------------------------------------------------------ *)
(** ** [int(str)] and [str.split(':')] *)

Module PyStr.

Definition code (c : ascii) : Z := Z.of_N (N_of_ascii c).

(** The characters [int] skips at both ends of its argument. *)
Definition is_space (c : ascii) : bool :=
  ((9 <=? code c) && (code c <=? 13)) || (code c =? 32)
  || (code c =? 133) || (code c =? 160).

Definition is_digit (c : ascii) : bool :=
  (48 <=? code c) && (code c <=? 57).

Definition digit_val (c : ascii) : Z := code c - 48.

Definition is_underscore (c : ascii) : bool := code c =? 95.
Definition is_colon (c : ascii) : bool := code c =? 58.

Fixpoint lstrip (l : list ascii) : list ascii :=
  match l with
  | [] => []
  | c :: t => if is_space c then lstrip t else l
  end.

Definition strip (l : list ascii) : list ascii :=
  rev (lstrip (rev (lstrip l))).

(** Decimal digits, where a single underscore may separate two digits.
    [prev] tells whether the previous character was a digit. *)
Fixpoint digits (acc : Z) (prev : bool) (l : list ascii) : option Z :=
  match l with
  | [] => if prev then Some acc else None
  | c :: t =>
      if is_digit c then digits (10 * acc + digit_val c) true t
      else if is_underscore c && prev then digits acc false t
      else None
  end.

(** [int(s)] in base ten: [None] stands for [ValueError]. *)
Definition int_of (s : list ascii) : option Z :=
  match strip s with
  | c :: t =>
      if code c =? 43 then digits 0 false t
      else if code c =? 45 then option_map Z.opp (digits 0 false t)
      else digits 0 false (c :: t)
  | [] => None
  end.

Definition py_int (s : list ascii) : result Z :=
  match int_of s with
  | Some z => Ok z
  | None => Raise ValueError
  end.

(** [s.split(':')]: [cur] is the field being read, reversed. *)
Fixpoint split_colon (cur : list ascii) (l : list ascii) : list (list ascii) :=
  match l with
  | [] => [rev cur]
  | c :: t =>
      if is_colon c then rev cur :: split_colon [] t
      else split_colon (c :: cur) t
  end.

Definition split (s : string) : list (list ascii) :=
  split_colon [] (list_ascii_of_string s).



End PyStr.

(* ------------------------------------------------------------------ *)
(** ** Helper functions of [app.py] *)

(** [mm, ss = map(int, toi_str.split(':')); return mm + (ss / 60.0)] *)
Definition parse_toi_body (s : string) : result Q :=
  match PyStr.split s with
  | [a; b] =>
      mm <- PyStr.py_int a ;;
      ss <- PyStr.py_int b ;;
      Ok (inject_Z mm + inject_Z ss / 60)%Q
  | _ => Raise ValueError
  end.

Definition parse_toi (toi_str : pyobj) : result Q :=
  if negb (truthy toi_str) then Ok 0%Q
  else
    try_except
      match toi_str with
      | PyStr s => parse_toi_body s
      | _ => Raise AttributeError
      end
      0%Q.

Definition str_of_Z (z : Z) : string :=
  DecimalString.NilZero.string_of_int (Z.to_int z).

(** [s[2:4] + '-' + s[6:8]] of [str(season_id)]. *)
Definition format_season (season_id : Z) : string :=
  let s := str_of_Z season_id in
  (String.substring 2 2 s ++ "-" ++ String.substring 6 2 s)%string.

Definition COLORS : list string :=
  ["#38bdf8"; "#f472b6"; "#34d399"]%string.

(** [COLORS[i]] *)
Definition color_at (i : nat) : result string :=
  match nth_error COLORS i with
  | Some c => Ok c
  | None => Raise IndexError
  end.

(* ------------------------------------------------------------------ *)
(** ** Numbers of the DataFrame *)

(** A cell of an integer column: [None] is the NaN pandas puts where a
    record of the feed has no such key. *)
Definition cell : Type := option Z.

(** A float that may be NaN. *)
Inductive num : Type :=
| Num (q : Q)
| NaN.

Definition of_cell (c : cell) : num :=
  match c with
  | Some z => Num (inject_Z z)
  | None => NaN
  end.

Definition nadd (a b : num) : num :=
  match a, b with
  | Num x, Num y => Num (x + y)%Q
  | _, _ => NaN
  end.

Definition nsub (a b : num) : num :=
  match a, b with
  | Num x, Num y => Num (x - y)%Q
  | _, _ => NaN
  end.

Definition nmul (a b : num) : num :=
  match a, b with
  | Num x, Num y => Num (x * y)%Q
  | _, _ => NaN
  end.

(** [a / b]: a zero divisor raises, whatever [a] is; otherwise a NaN
    operand gives NaN.  (On numpy scalars a zero divisor gives inf or nan
    with a warning; the model raises there too.) *)
Definition ndiv (a b : num) : result num :=
  match b with
  | Num y =>
      if Qeq_bool y 0 then Raise ZeroDivisionError
      else Ok (match a with
               | Num x => Num (x / y)%Q
               | NaN => NaN
               end)
  | NaN => Ok NaN
  end.

Definition qdiv (x y : Q) : result Q :=
  if Qeq_bool y 0 then Raise ZeroDivisionError else Ok (x / y)%Q.

(** [q > 0] on floats. *)
Definition gt0 (q : Q) : bool := (0 <? Qnum q)%Z.

(** [x > 0], false on NaN. *)
Definition ngt0 (a : num) : bool :=
  match a with
  | Num q => gt0 q
  | NaN => false
  end.

Definition cadd (a b : cell) : cell :=
  match a, b with
  | Some x, Some y => Some (x + y)
  | _, _ => None
  end.

(** [Series.sum()], which skips NaN. *)
Definition sum_cells (l : list cell) : Z :=
  fold_left (fun acc c => match c with Some z => acc + z | None => acc end) l 0.

Definition sum_skipna (l : list num) : Q :=
  fold_left (fun acc x => match x with Num q => (acc + q)%Q | NaN => acc end) l 0%Q.

(** [Series.cumsum()]: a NaN stays NaN and is left out of the running sum. *)
Fixpoint cumsum_from (acc : Q) (l : list num) : list num :=
  match l with
  | [] => []
  | Num q :: t => Num (acc + q)%Q :: cumsum_from (acc + q)%Q t
  | NaN :: t => NaN :: cumsum_from acc t
  end.

Definition cumsum (l : list num) : list num := cumsum_from 0%Q l.

(* ------------------------------------------------------------------ *)
(** ** The game log and its DataFrame *)

Module Raw.

(** One record of [log['gameLog']].  A field is [None] when the record
    has no such key.  [gameDate] is carried as the instant
    [pd.to_datetime] assigns to it. *)
Record game : Type := {
  gameDate : option Z;
  toi : option string;
  powerPlayToi : option string;
  shorthandedToi : option string;
  goals : cell;
  assists : cell;
  points : cell;
  shots : cell;
  plusMinus : cell;
  powerPlayPoints : cell;
  shorthandedPoints : cell;
  powerPlayGoals : cell;
  shorthandedGoals : cell
}.

End Raw.

(** A row of [df] after the normalization block. *)
Record Row : Type := {
  date_obj : option Z;
  game_number : Z;
  toi_val : Q;
  pp_toi_val : Q;
  sh_toi_val : Q;
  goals : cell;
  assists : cell;
  points : cell;
  shots : cell;
  plusMinus : cell;
  powerPlayPoints : cell;
  shorthandedPoints : cell;
  powerPlayGoals : cell;
  shorthandedGoals : cell
}.

(** [col in df.columns] for [df = pd.DataFrame(log)]: some record has the key. *)
Definition has_column {A : Type} (f : Raw.game -> option A) (log : list Raw.game) : bool :=
  existsb (fun r => match f r with Some _ => true | None => false end) log.

(** Order of [sort_values('date_obj')]: ascending, NaT last. *)
Definition date_leb (a b : option Z) : bool :=
  match a, b with
  | Some x, Some y => x <=? y
  | _, None => true
  | None, Some _ => false
  end.

Fixpoint insert_by_date (r : Raw.game) (l : list Raw.game) : list Raw.game :=
  match l with
  | [] => [r]
  | h :: t =>
      if date_leb (Raw.gameDate r) (Raw.gameDate h) then r :: l
      else h :: insert_by_date r t
  end.

(** [df.sort_values('date_obj')]; records of equal date keep the order of
    the feed here (pandas leaves their order open). *)
Fixpoint sort_values (l : list Raw.game) : list Raw.game :=
  match l with
  | [] => []
  | r :: t => insert_by_date r (sort_values t)
  end.

(** A clock cell as [apply] hands it to [parse_toi]. *)
Definition clock_cell (o : option string) : pyobj :=
  match o with
  | Some s => PyStr s
  | None => PyNaN
  end.

(** [df.get(col, pd.Series(['00:00']*len(df)))] at one row. *)
Definition clock_or_default (f : Raw.game -> option string)
    (log : list Raw.game) (r : Raw.game) : pyobj :=
  if has_column f log then clock_cell (f r) else PyStr "00:00".

(** [if col not in df.columns: df[col] = 0] at one row. *)
Definition numeric_or_zero (f : Raw.game -> cell)
    (log : list Raw.game) (r : Raw.game) : cell :=
  if has_column f log then f r else Some 0.

Definition normalize_row (log : list Raw.game) (idx : nat) (r : Raw.game) : result Row :=
  t <- parse_toi (clock_cell (Raw.toi r)) ;;
  pp <- parse_toi (clock_or_default Raw.powerPlayToi log r) ;;
  sh <- parse_toi (clock_or_default Raw.shorthandedToi log r) ;;
  Ok {| date_obj := Raw.gameDate r;
        game_number := Z.of_nat idx + 1;
        toi_val := t;
        pp_toi_val := pp;
        sh_toi_val := sh;
        goals := numeric_or_zero Raw.goals log r;
        assists := numeric_or_zero Raw.assists log r;
        points := numeric_or_zero Raw.points log r;
        shots := numeric_or_zero Raw.shots log r;
        plusMinus := numeric_or_zero Raw.plusMinus log r;
        powerPlayPoints := numeric_or_zero Raw.powerPlayPoints log r;
        shorthandedPoints := numeric_or_zero Raw.shorthandedPoints log r;
        powerPlayGoals := numeric_or_zero Raw.powerPlayGoals log r;
        shorthandedGoals := numeric_or_zero Raw.shorthandedGoals log r |}.

Fixpoint normalize_rows (log : list Raw.game) (idx : nat) (l : list Raw.game)
    : result (list Row) :=
  match l with
  | [] => Ok []
  | r :: t =>
      row <- normalize_row log idx r ;;
      rest <- normalize_rows log (S idx) t ;;
      Ok (row :: rest)
  end.

(** Lines 239-250: the DataFrame of a game log, sorted, numbered and with
    its defaults. *)
Definition normalize (log : list Raw.game) : result (list Row) :=
  if negb (has_column Raw.gameDate log) then Raise (KeyError "gameDate")
  else if negb (has_column Raw.toi log) then Raise (KeyError "toi")
  else normalize_rows log 0 (sort_values log).

(* ------------------------------------------------------------------ *)
(** ** Modes and metrics *)

Inductive mode : Type :=
| cumulative
| projection
| distribution.

Definition mode_eqb (a b : mode) : bool :=
  match a, b with
  | cumulative, cumulative | projection, projection
  | distribution, distribution => true
  | _, _ => false
  end.

(** The keys of [METRIC_OPTIONS[mode_key]]. *)
Definition METRIC_OPTIONS (mode_key : mode) : list string :=
  match mode_key with
  | cumulative =>
      ["points"; "goals"; "assists"; "shots"; "plusMinus"; "evenStrengthPoints"]
  | projection =>
      ["points"; "goals"; "assists"; "shots"; "shootingPct"; "toi"; "esToi";
       "evenStrengthPct"; "plusMinus"]
  | distribution =>
      ["pointsComp"; "pointsSit"; "goalsSit"; "assistsSit"]
  end%string.

Definition in_list (m : string) (l : list string) : bool :=
  existsb (String.eqb m) l.

(** [max(0, x)] *)
Definition max0 (x : Q) : Q := if gt0 x then x else 0%Q.

(** Lines 289-297: the per-game scalar of the selected metric. *)
Definition stat_value (selected_metric_id : string) (row : Row) : num :=
  if (selected_metric_id =? "points")%string then of_cell (points row)
  else if (selected_metric_id =? "goals")%string then of_cell (goals row)
  else if (selected_metric_id =? "assists")%string then of_cell (assists row)
  else if (selected_metric_id =? "plusMinus")%string then of_cell (plusMinus row)
  else if (selected_metric_id =? "shots")%string then of_cell (shots row)
  else if (selected_metric_id =? "toi")%string then Num (toi_val row)
  else if (selected_metric_id =? "esToi")%string then
    Num (max0 (toi_val row - pp_toi_val row - sh_toi_val row)%Q)
  else if (selected_metric_id =? "evenStrengthPoints")%string then
    nsub (of_cell (points row))
         (nadd (of_cell (powerPlayPoints row)) (of_cell (shorthandedPoints row)))
  else Num 0%Q.

Definition RATE_METRICS : list string :=
  ["shootingPct"; "evenStrengthPct"; "toi"; "esToi"; "shots"]%string.

(** Lines 312-330: the plotted value of one row. *)
Definition y_value (mode_key : mode) (selected_metric_id : string) (gp : Z)
    (cum_val cum_goals cum_shots cum_points cum_pp_sh_pts : num) : result num :=
  res <-
    (if (selected_metric_id =? "shootingPct")%string then
       if ngt0 cum_shots
       then r <- ndiv cum_goals cum_shots ;; Ok (nmul r (Num 100%Q))
       else Ok (Num 0%Q)
     else if (selected_metric_id =? "evenStrengthPct")%string then
       if ngt0 cum_points
       then r <- ndiv (nsub cum_points cum_pp_sh_pts) cum_points ;;
            Ok (nmul r (Num 100%Q))
       else Ok (Num 0%Q)
     else if in_list selected_metric_id ["toi"; "esToi"]%string then
       ndiv cum_val (Num (inject_Z gp))
     else if (selected_metric_id =? "shots")%string && mode_eqb mode_key projection then
       ndiv cum_val (Num (inject_Z gp))
     else Ok cum_val) ;;
  if mode_eqb mode_key projection then
    if negb (in_list selected_metric_id RATE_METRICS)
    then r <- ndiv res (Num (inject_Z gp)) ;; Ok (nmul r (Num 82%Q))
    else Ok res
  else Ok res.

(** [df.iloc[a:b]] on one column. *)
Definition iloc {A : Type} (a b : nat) (l : list A) : list A :=
  skipn a (firstn b l).

(** Lines 346-369: the rolling value at row [idx >= 9]. *)
Definition rolling_value (selected_metric_id : string) (idx : nat)
    (df : list Row) (stat_val : list num) : result Q :=
  let s_val := sum_skipna (iloc (idx - 9) (idx + 1) stat_val) in
  let s_goals := inject_Z (sum_cells (iloc (idx - 9) (idx + 1) (map goals df))) in
  let s_shots := inject_Z (sum_cells (iloc (idx - 9) (idx + 1) (map shots df))) in
  let s_pts := inject_Z (sum_cells (iloc (idx - 9) (idx + 1) (map points df))) in
  let s_spec :=
    inject_Z (sum_cells (iloc (idx - 9) (idx + 1) (map powerPlayPoints df))
              + sum_cells (iloc (idx - 9) (idx + 1) (map shorthandedPoints df))) in
  r_res <-
    (if (selected_metric_id =? "shootingPct")%string then
       if gt0 s_shots
       then r <- qdiv s_goals s_shots ;; Ok (r * 100)%Q
       else Ok 0%Q
     else if (selected_metric_id =? "evenStrengthPct")%string then
       if gt0 s_pts
       then r <- qdiv (s_pts - s_spec)%Q s_pts ;; Ok (r * 100)%Q
       else Ok 0%Q
     else if in_list selected_metric_id ["toi"; "esToi"]%string then
       Ok (s_val / 10)%Q
     else if (selected_metric_id =? "shots")%string then Ok (s_val / 10)%Q
     else Ok s_val) ;;
  if negb (in_list selected_metric_id RATE_METRICS)
  then Ok (r_res / 10 * 82)%Q
  else Ok r_res.

(** Lines 340-371: [None] for the first nine rows. *)
Definition roll_y (selected_metric_id : string) (df : list Row)
    (stat_val : list num) : result (list (option Q)) :=
  mapM (fun idx =>
          if (idx <? 9)%nat then Ok None
          else r <- rolling_value selected_metric_id idx df stat_val ;; Ok (Some r))
       (seq 0 (List.length df)).

(** [df] with the columns the series branch adds to it. *)
Record Frame : Type := {
  rows : list Row;
  stat_val : list num;
  cum_val : list num;
  cum_goals : list num;
  cum_shots : list num;
  cum_points : list num;
  cum_pp_sh_pts : list num;
  y_final : list num;
  y_rolling : option (list (option Q));
  player_name : string;
  color : string;
  season_label : string
}.

(** Lines 311-332: the loop over [df.iterrows()]. *)
Definition y_values (mode_key : mode) (selected_metric_id : string)
    (df : list Row) (cv cg cs cp csp : list num) : result (list num) :=
  mapM (fun ir : nat * Row =>
         let (idx, row) := ir in
         y_value mode_key selected_metric_id (game_number row)
           (nth idx cv NaN) (nth idx cg NaN) (nth idx cs NaN)
           (nth idx cp NaN) (nth idx csp NaN))
       (combine (seq 0 (List.length df)) df).

(** Lines 286-373: the frame of selection [i]. *)
Definition series (mode_key : mode) (selected_metric_id : string)
    (df : list Row) (name : string) (i : nat) (label : string) : result Frame :=
  let sv := map (stat_value selected_metric_id) df in
  let cv := cumsum sv in
  let cg := cumsum (map (fun r => of_cell (goals r)) df) in
  let cs := cumsum (map (fun r => of_cell (shots r)) df) in
  let cp := cumsum (map (fun r => of_cell (points r)) df) in
  let csp :=
    cumsum (map (fun r => of_cell (cadd (powerPlayPoints r) (shorthandedPoints r))) df) in
  ys <- y_values mode_key selected_metric_id df cv cg cs cp csp ;;
  col <- color_at i ;;
  roll <- (if mode_eqb mode_key projection
           then r <- roll_y selected_metric_id df sv ;; Ok (Some r)
           else Ok None) ;;
  Ok
  {| rows := df;
     stat_val := sv;
     cum_val := cv;
     cum_goals := cg;
     cum_shots := cs;
     cum_points := cp;
     cum_pp_sh_pts := csp;
     y_final := ys;
     y_rolling := roll;
     player_name := name;
     color := col;
     season_label := label |}.

(* ------------------------------------------------------------------ *)
(** ** Distribution mode *)

(** The [totals] dict of lines 253-266. *)
Record Totals : Type := {
  t_goals : Z;
  t_assists : Z;
  t_points : Z;
  pp_goals : Z;
  sh_goals : Z;
  pp_points : Z;
  sh_points : Z;
  es_goals : Z;
  es_points : Z;
  pp_assists : Z;
  sh_assists : Z;
  es_assists : Z
}.

Definition totals (df : list Row) : Totals :=
  let pp_a := sum_cells (map powerPlayPoints df) - sum_cells (map powerPlayGoals df) in
  let sh_a := sum_cells (map shorthandedPoints df) - sum_cells (map shorthandedGoals df) in
  {| t_goals := sum_cells (map goals df);
     t_assists := sum_cells (map assists df);
     t_points := sum_cells (map points df);
     pp_goals := sum_cells (map powerPlayGoals df);
     sh_goals := sum_cells (map shorthandedGoals df);
     pp_points := sum_cells (map powerPlayPoints df);
     sh_points := sum_cells (map shorthandedPoints df);
     es_goals := sum_cells (map goals df) - sum_cells (map powerPlayGoals df)
                 - sum_cells (map shorthandedGoals df);
     es_points := sum_cells (map points df) - sum_cells (map powerPlayPoints df)
                  - sum_cells (map shorthandedPoints df);
     pp_assists := pp_a;
     sh_assists := sh_a;
     es_assists := sum_cells (map assists df) - pp_a - sh_a |}.

(** [dist_data]; the keys [labels] and [values] are set by the metric
    chain only. *)
Record DistData : Type := {
  d_name : string;
  d_season : string;
  d_color : string;
  d_labels : option (list string);
  d_values : option (list Z)
}.

Definition SITUATIONS : list string :=
  ["Even Strength"; "Power Play"; "Shorthanded"]%string.

(** Lines 270-281. *)
Definition dist_choice (selected_metric_id : string) (t : Totals)
    : option (list string * list Z) :=
  if (selected_metric_id =? "pointsComp")%string then
    Some (["Goals"; "Assists"]%string, [t_goals t; t_assists t])
  else if (selected_metric_id =? "pointsSit")%string then
    Some (SITUATIONS, [es_points t; pp_points t; sh_points t])
  else if (selected_metric_id =? "goalsSit")%string then
    Some (SITUATIONS, [es_goals t; pp_goals t; sh_goals t])
  else if (selected_metric_id =? "assistsSit")%string then
    Some (SITUATIONS, [es_assists t; pp_assists t; sh_assists t])
  else None.

(* ------------------------------------------------------------------ *)
(** ** The selection list *)

(** An entry of [st.session_state.players]. *)
Record Player : Type := {
  id : Z;
  name : string;
  team : string;
  selected_season : Z;
  available_seasons : list Z;
  color_idx : nat;
  instance_id : Q
}.

(** A hit of the player search, as handed to [add_player]. *)
Record SearchHit : Type := {
  playerId : option Z;
  hit_name : option string;
  teamAbbrev : option string
}.

Record SeasonTotal : Type := {
  season : option Z;
  leagueAbbrev : option string;
  gameTypeId : option Z
}.

(** The landing document of a player; [other_keys] tells whether it has
    keys besides the two that [add_player] reads. *)
Record Details : Type := {
  seasonTotals : option (list SeasonTotal);
  seasonId : option Z;
  other_keys : bool
}.

(** [d[key]] *)
Definition item {A : Type} (key : string) (o : option A) : result A :=
  match o with
  | Some a => Ok a
  | None => Raise (KeyError key)
  end.

(** [d.get(key, default)] *)
Definition get_or {A : Type} (o : option A) (default : A) : A :=
  match o with
  | Some a => a
  | None => default
  end.

(** Truth value of what [get_player_details] returns: [None] and the empty
    document are false. *)
Definition details_truthy (d : option Details) : bool :=
  match d with
  | None => false
  | Some d =>
      match seasonTotals d, seasonId d with
      | None, None => other_keys d
      | _, _ => true
      end
  end.

(** Line 116: the NHL regular-season totals. *)
Fixpoint nhl_seasons (l : list SeasonTotal) : result (list SeasonTotal) :=
  match l with
  | [] => Ok []
  | s :: t =>
      league <- item "leagueAbbrev" (leagueAbbrev s) ;;
      keep <- (if (league =? "NHL")%string
               then g <- item "gameTypeId" (gameTypeId s) ;; Ok (g =? 2)
               else Ok false) ;;
      rest <- nhl_seasons t ;;
      Ok (if keep then s :: rest else rest)
  end.

(** Lines 117-121: the seasons in order of first occurrence. *)
Fixpoint dedup_seasons (seen seasons : list Z) (l : list SeasonTotal)
    : result (list Z) :=
  match l with
  | [] => Ok seasons
  | s :: t =>
      y <- item "season" (season s) ;;
      if existsb (Z.eqb y) seen then dedup_seasons seen seasons t
      else dedup_seasons (y :: seen) (seasons ++ [y]) t
  end.

Fixpoint insert_desc (y : Z) (l : list Z) : list Z :=
  match l with
  | [] => [y]
  | h :: t => if h <=? y then y :: l else h :: insert_desc y t
  end.

(** [seasons.sort(reverse=True)] *)
Definition sort_desc (l : list Z) : list Z :=
  fold_right insert_desc [] l.

(** Lines 114-125. *)
Definition seasons_of (d : Details) : result (list Z) :=
  seasons <- match seasonTotals d with
             | Some l =>
                 nhl <- nhl_seasons l ;;
                 ss <- dedup_seasons [] [] nhl ;;
                 Ok (sort_desc ss)
             | None => Ok []
             end ;;
  Ok (match seasons with
      | [] => [get_or (seasonId d) 20232024]
      | _ => seasons
      end).

(** What [add_player] shows to the user. *)
Inductive notice : Type :=
| warning (msg : string)
| error (msg : string).

(** [add_player]: the selection list after the call, and the notice shown
    or the exception raised.  [now] is [datetime.now().timestamp()]. *)
Definition add_player (players : list Player) (player_data : SearchHit)
    (get_player_details : Z -> option Details) (now : Q)
    : list Player * result (option notice) :=
  if (3 <=? List.length players)%nat then
    (players, Ok (Some (warning "Maximum 3 players allowed.")))
  else
    match item "playerId" (playerId player_data) with
    | Raise e => (players, Raise e)
    | Ok pid =>
        let details := get_player_details pid in
        if negb (details_truthy details) then
          (players, Ok (Some (error "Could not fetch player details.")))
        else
          match details with
          | None => (players, Ok (Some (error "Could not fetch player details.")))
          | Some d =>
              match seasons_of d with
              | Raise e => (players, Raise e)
              | Ok seasons =>
                  match seasons with
                  | [] => (players, Raise IndexError)
                  | s0 :: _ =>
                      (players ++
                       [{| id := pid;
                           name := get_or (hit_name player_data) "Unknown"%string;
                           team := get_or (teamAbbrev player_data) "NHL"%string;
                           selected_season := s0;
                           available_seasons := seasons;
                           color_idx := List.length players;
                           instance_id := now |}],
                       Ok None)
                  end
              end
          end
    end.

(* ------------------------------------------------------------------ *)
(** ** One analysis run *)

(** What [get_game_log] returns when it returns a document: [gameLog] is
    [None] when the document has no such key. *)
Record GameLogResponse : Type := {
  gameLog : option (list Raw.game)
}.

(** Lines 236-375 for one selection: [None] when the guard of line 238
    skips it, else the summary or the frame that is appended. *)
Definition process_selection (mode_key : mode) (selected_metric_id : string)
    (get_game_log : Z -> Z -> option GameLogResponse) (i : nat) (p : Player)
    : result (option (DistData + Frame)) :=
  match get_game_log (id p) (selected_season p) with
  | Some {| gameLog := Some log |} =>
      df <- normalize log ;;
      if mode_eqb mode_key distribution then
        let t := totals df in
        c <- color_at i ;;
        let choice := dist_choice selected_metric_id t in
        Ok (Some (inl {| d_name := name p;
                         d_season := format_season (selected_season p);
                         d_color := c;
                         d_labels := option_map fst choice;
                         d_values := option_map snd choice |}))
      else
        f <- series mode_key selected_metric_id df
               (name p) i (format_season (selected_season p)) ;;
        Ok (Some (inr f))
  | _ => Ok None
  end.

(** The loop of line 235 over [enumerate(players)], from index [i]:
    [all_dfs] and [distribution_summaries]. *)
Fixpoint process_players (mode_key : mode) (selected_metric_id : string)
    (get_game_log : Z -> Z -> option GameLogResponse) (i : nat)
    (players : list Player) : result (list Frame * list DistData) :=
  match players with
  | [] => Ok ([], [])
  | p :: t =>
      x <- process_selection mode_key selected_metric_id get_game_log i p ;;
      rest <- process_players mode_key selected_metric_id get_game_log (S i) t ;;
      Ok (match x with
          | None => rest
          | Some (inl d) => (fst rest, d :: snd rest)
          | Some (inr f) => (f :: fst rest, snd rest)
          end)
  end.

(** A pie of the distribution view: [dist['labels']] and [dist['values']]. *)
Record Pie : Type := {
  pie_title : string;
  pie_labels : list string;
  pie_values : list Z
}.

Definition pie_of (d : DistData) : result Pie :=
  labels <- item "labels" (d_labels d) ;;
  values <- item "values" (d_values d) ;;
  Ok {| pie_title := d_name d; pie_labels := labels; pie_values := values |}.

(** What one run hands to the presentation layer. *)
Inductive Output : Type :=
| Info (msg : string)
| Pies (l : list Pie)
| Warning (msg : string)
| Figure (all_dfs : list Frame).

(** Lines 226-457, with "Launch Analysis" pressed. *)
Definition launch_analysis (mode_key : mode) (selected_metric_id : string)
    (get_game_log : Z -> Z -> option GameLogResponse)
    (players : list Player) : result Output :=
  match players with
  | [] => Ok (Info "Please search and add players to begin.")
  | _ =>
      r <- process_players mode_key selected_metric_id get_game_log 0 players ;;
      let (all_dfs, distribution_summaries) := r in
      if mode_eqb mode_key distribution then
        pies <- mapM pie_of distribution_summaries ;;
        Ok (Pies pies)
      else
        match all_dfs with
        | [] => Ok (Warning "No game data available for selected parameters.")
        | _ => Ok (Figure all_dfs)
        end
  end.

(* ------------------------------------------------------------------ *)
(** ** Vocabulary of the statements *)



(** [a] is not after [b] in the order of [sort_values]. *)
Definition date_le (a b : option Z) : Prop := date_leb a b = true.

(** The game numbers 1..n. *)
Definition one_to (n : nat) : list Z := map (fun i => Z.of_nat i + 1) (seq 0 n).

(** [a / b] where [b] is not zero. *)
Definition nquot (a b : num) : num :=
  match a, b with
  | Num x, Num y => Num (x / y)%Q
  | _, _ => NaN
  end.

(** The cumulative sum at game [g] (1-based): NaN where the game's own
    value is NaN, else the sum of the values of games 1..g. *)
Definition running_total (l : list num) (g : nat) : num :=
  match nth_error l (g - 1) with
  | Some (Num _) => Num (sum_skipna (firstn g l))
  | _ => NaN
  end.

(** The sum over the trailing ten games [g-9 .. g] (1-based). *)
Definition window_sum (l : list num) (g : nat) : Q :=
  sum_skipna (iloc (g - 10) g l).

Definition window_cells (l : list cell) (g : nat) : Q :=
  inject_Z (sum_cells (iloc (g - 10) g l)).

(** A percentage [a / b * 100] behind the guard [b > 0]. *)
Definition guarded_pct (a b : num) : num :=
  if ngt0 b then nmul (nquot a b) (Num 100%Q) else Num 0%Q.

(** The value of lines 312-330 with the divisions written as quotients:
    [g] is the game number, the other arguments the running totals. *)
Definition plotted (mode_key : mode) (m : string) (g cv cg cs cp csp : num) : num :=
  let res :=
    if (m =? "shootingPct")%string then guarded_pct cg cs
    else if (m =? "evenStrengthPct")%string then guarded_pct (nsub cp csp) cp
    else if in_list m ["toi"; "esToi"]%string then nquot cv g
    else if (m =? "shots")%string && mode_eqb mode_key projection then nquot cv g
    else cv in
  if mode_eqb mode_key projection && negb (in_list m RATE_METRICS)
  then nmul (nquot res g) (Num 82%Q)
  else res.

(** The value of lines 354-369 on the sums of one window. *)
Definition rolled (m : string) (s_val s_goals s_shots s_pts s_spec : Q) : Q :=
  let r_res :=
    if (m =? "shootingPct")%string then
      if gt0 s_shots then (s_goals / s_shots * 100)%Q else 0%Q
    else if (m =? "evenStrengthPct")%string then
      if gt0 s_pts then ((s_pts - s_spec) / s_pts * 100)%Q else 0%Q
    else if in_list m ["toi"; "esToi"; "shots"]%string then (s_val / 10)%Q
    else s_val in
  if negb (in_list m RATE_METRICS) then (r_res / 10 * 82)%Q else r_res.

(** The rolling value of game [g >= 10] (1-based) of a frame. *)
Definition rolled_at (m : string) (df : list Row) (sv : list num) (g : nat) : Q :=
  rolled m (window_sum sv g)
    (window_cells (map goals df) g) (window_cells (map shots df) g)
    (window_cells (map points df) g)
    (inject_Z (sum_cells (iloc (g - 10) g (map powerPlayPoints df))
               + sum_cells (iloc (g - 10) g (map shorthandedPoints df)))).

(** Row [k] (0-based) carries game number [k + 1]. *)
Definition numbered (df : list Row) : Prop :=
  forall k row, nth_error df k = Some row -> game_number row = Z.of_nat k + 1.

(** The columns a frame is built from. *)
Definition goals_col (df : list Row) : list num := map (fun r => of_cell (goals r)) df.
Definition shots_col (df : list Row) : list num := map (fun r => of_cell (shots r)) df.
Definition points_col (df : list Row) : list num := map (fun r => of_cell (points r)) df.
Definition special_col (df : list Row) : list num :=
  map (fun r => of_cell (cadd (powerPlayPoints r) (shorthandedPoints r))) df.

(** The plotted value of game [g] (1-based) of a frame, as a formula of
    the running totals. *)
Definition plotted_at (mode_key : mode) (m : string) (df : list Row) (g : nat) : num :=
  plotted mode_key m (Num (inject_Z (Z.of_nat g)))
    (running_total (map (stat_value m) df) g)
    (running_total (goals_col df) g)
    (running_total (shots_col df) g)
    (running_total (points_col df) g)
    (running_total (special_col df) g).

(** No value present in the list is negative. *)
Definition nonneg_values (l : list num) : Prop :=
  Forall (fun x => match x with Num q => (0 <= q)%Q | NaN => True end) l.

Module Sample.

(** A record with every field present; no special-teams production. *)
Definition played (d : Z) (clock : string) (g a sh : Z) : Raw.game :=
  {| Raw.gameDate := Some d;
     Raw.toi := Some clock;
     Raw.powerPlayToi := Some "01:30"%string;
     Raw.shorthandedToi := Some "00:00"%string;
     Raw.goals := Some g;
     Raw.assists := Some a;
     Raw.points := Some (g + a);
     Raw.shots := Some sh;
     Raw.plusMinus := Some 0;
     Raw.powerPlayPoints := Some 0;
     Raw.shorthandedPoints := Some 0;
     Raw.powerPlayGoals := Some 0;
     Raw.shorthandedGoals := Some 0 |}.

(** Eleven games of one goal on two shots, delivered latest first. *)
Definition season : list Raw.game :=
  map (fun d => played (Z.of_nat d) "18:32" 1 0 2) (rev (seq 1 11)).

Definition frame_of (log : list Raw.game) : list Row :=
  match normalize log with
  | Ok df => df
  | Raise _ => []
  end.

Definition df : list Row := frame_of season.

(** Two games, the second of the feed played first. *)
Definition pair : list Raw.game :=
  [played 20240112 "10:00" 0 0 2; played 20240110 "12:30" 1 0 3].

End Sample.

Definition COUNTING_METRICS : list string :=
  ["points"; "goals"; "assists"; "plusMinus"]%string.

(** [a / b * 100] behind the guard [b > 0], on window sums. *)
Definition guarded_pct_q (a b : Q) : Q :=
  if gt0 b then (a / b * 100)%Q else 0%Q.

(** The counts of a column are not negative. *)
Definition counts (f : Row -> cell) (df : list Row) : Prop :=
  forall row z, In row df -> f row = Some z -> 0 <= z.

Module Faulty.

(** A record of the feed that has a date and nothing else. *)
Definition dated (d : Z) : Raw.game :=
  {| Raw.gameDate := Some d;
     Raw.toi := None;
     Raw.powerPlayToi := None;
     Raw.shorthandedToi := None;
     Raw.goals := None;
     Raw.assists := None;
     Raw.points := None;
     Raw.shots := None;
     Raw.plusMinus := None;
     Raw.powerPlayPoints := None;
     Raw.shorthandedPoints := None;
     Raw.powerPlayGoals := None;
     Raw.shorthandedGoals := None |}.

(** Two games; the record of the second has no [points] key. *)
Definition gap : list Raw.game :=
  [Sample.played 1 "15:00" 1 0 2;
   {| Raw.gameDate := Some 2;
      Raw.toi := Some "15:00"%string;
      Raw.powerPlayToi := None;
      Raw.shorthandedToi := None;
      Raw.goals := Some 0;
      Raw.assists := Some 0;
      Raw.points := None;
      Raw.shots := Some 1;
      Raw.plusMinus := Some 0;
      Raw.powerPlayPoints := Some 0;
      Raw.shorthandedPoints := Some 0;
      Raw.powerPlayGoals := Some 0;
      Raw.shorthandedGoals := Some 0 |}].

Definition player : Player :=
  {| id := 8477492;
     name := "Player";
     team := "COL";
     selected_season := 20232024;
     available_seasons := [20232024; 20222023];
     color_idx := 0;
     instance_id := 0 |}.

(** A provider that answers every request with the same game log. *)
Definition serving (log : list Raw.game) : Z -> Z -> option GameLogResponse :=
  fun _ _ => Some {| gameLog := Some log |}.

End Faulty.

(** The ids that the dispatch chains of the series branch compare with. *)
Definition SERIES_METRICS : list string :=
  ["points"; "goals"; "assists"; "plusMinus"; "shots"; "toi"; "esToi";
   "evenStrengthPoints"; "shootingPct"; "evenStrengthPct"]%string.

(* ------------------------------------------------------------------ *)
(** ** The search, the fetchers and the other operations of the page *)

Definition BASE_URL : string := "https://api-web.nhle.com/v1".

Definition SEARCH_URL : string :=
  "https://search.d3.nhle.com/api/v1/search/player".

(** [search_player]; [get url] is [requests.get(url).json()], whose
    failures (and a document that cannot be sliced) are exceptions. *)
Definition search_player (get : string -> result (list SearchHit))
    (query : string) : result (list SearchHit) :=
  if (String.length query <? 3)%nat then Ok []
  else
    try_except
      (data <- get (SEARCH_URL ++ "?culture=en-us&limit=15&q=" ++ query)%string ;;
       Ok (firstn 10 data))
      [].

(** [get_player_details] *)
Definition get_player_details (get : string -> result Details)
    (player_id : Z) : option Details :=
  match get (BASE_URL ++ "/player/" ++ str_of_Z player_id ++ "/landing")%string with
  | Ok d => Some d
  | Raise _ => None
  end.

(** [get_game_log] *)
Definition get_game_log (get : string -> result GameLogResponse)
    (player_id season : Z) : option GameLogResponse :=
  match get (BASE_URL ++ "/player/" ++ str_of_Z player_id ++ "/game-log/"
             ++ str_of_Z season ++ "/2")%string with
  | Ok d => Some d
  | Raise _ => None
  end.

(** [p['color_idx'] = i] *)
Definition set_color_idx (i : nat) (p : Player) : Player :=
  {| id := id p;
     name := name p;
     team := team p;
     selected_season := selected_season p;
     available_seasons := available_seasons p;
     color_idx := i;
     instance_id := instance_id p |}.

(** [for i, p in enumerate(players): p['color_idx'] = i], from index [i]. *)
Fixpoint reindex_from (i : nat) (players : list Player) : list Player :=
  match players with
  | [] => []
  | p :: t => set_color_idx i p :: reindex_from (S i) t
  end.

(** The list without its element at position [k]. *)
Fixpoint pop_at {A : Type} (k : nat) (l : list A) : list A :=
  match l, k with
  | [], _ => []
  | _ :: t, O => t
  | h :: t, S k' => h :: pop_at k' t
  end.

(** [remove_player]: [list.pop(idx)] counts a negative index from the end
    and raises IndexError outside the list. *)
Definition remove_player (players : list Player) (idx : Z)
    : list Player * result unit :=
  let n := Z.of_nat (List.length players) in
  let k := if idx <? 0 then idx + n else idx in
  if (k <? 0) || (n <=? k) then (players, Raise IndexError)
  else (reindex_from 0 (pop_at (Z.to_nat k) players), Ok tt).

(** [p['selected_season'] = new_season] *)
Definition set_selected_season (s : Z) (p : Player) : Player :=
  {| id := id p;
     name := name p;
     team := team p;
     selected_season := s;
     available_seasons := available_seasons p;
     color_idx := color_idx p;
     instance_id := instance_id p |}.

Fixpoint update_at {A : Type} (k : nat) (f : A -> A) (l : list A) : list A :=
  match l, k with
  | [], _ => []
  | h :: t, O => f h :: t
  | h :: t, S k' => h :: update_at k' f t
  end.

(** Lines 193-194, for the selection at position [i] of the loop. *)
Definition select_season (players : list Player) (i : nat) (new_season : Z)
    : list Player :=
  match nth_error players i with
  | Some p =>
      if negb (new_season =? selected_season p)
      then update_at i (set_selected_season new_season) players
      else players
  | None => players
  end.

(** [l.index(x)] *)
Fixpoint py_index (x : Z) (l : list Z) : result nat :=
  match l with
  | [] => Raise ValueError
  | h :: t => if h =? x then Ok 0%nat else k <- py_index x t ;; Ok (S k)
  end.

(** Line 188: the position of the selected season in the select box. *)
Definition season_index (p : Player) : result nat :=
  py_index (selected_season p) (available_seasons p).

(** [needle in hay] on strings. *)
Fixpoint contains (needle hay : string) : bool :=
  String.prefix needle hay
  || match hay with
     | EmptyString => false
     | String _ t => contains needle t
     end.

(** The options of the "Analysis Mode" radio. *)
Definition VIEW_MODES : list string :=
  ["Cumulative"; "82-Gm Pace"; "Distribution"]%string.

(** Lines 212-214. *)
Definition mode_key_of (view_mode : string) : mode :=
  if contains "Pace" view_mode then projection
  else if contains "Distribution" view_mode then distribution
  else cumulative.

(** [METRIC_OPTIONS[mode_key]] with its values: id, label and unit. *)
Definition METRIC_TABLE (mode_key : mode) : list (string * (string * string)) :=
  match mode_key with
  | cumulative =>
      [("points", ("Points", ""));
       ("goals", ("Goals", ""));
       ("assists", ("Assists", ""));
       ("shots", ("Shots on Goal", ""));
       ("plusMinus", ("Plus/Minus", ""));
       ("evenStrengthPoints", ("Even Strength Points", ""))]
  | projection =>
      [("points", ("Points", ""));
       ("goals", ("Goals", ""));
       ("assists", ("Assists", ""));
       ("shots", ("Shots Per Game", ""));
       ("shootingPct", ("Shooting %", "%"));
       ("toi", ("Avg Time On Ice", "m"));
       ("esToi", ("Avg Even Strength TOI", "m"));
       ("evenStrengthPct", ("Even Strength % of Prod", "%"));
       ("plusMinus", ("Plus/Minus", ""))]
  | distribution =>
      [("pointsComp", ("Points (Goals vs Assists)", ""));
       ("pointsSit", ("Points Situation (ES/PP/SH)", ""));
       ("goalsSit", ("Goals Situation (ES/PP/SH)", ""));
       ("assistsSit", ("Assists Situation (ES/PP/SH)", ""))]
  end%string.

(** Line 219: the labels offered by the "Metric" select box. *)
Definition metric_labels (mode_key : mode) : list string :=
  map (fun kv => fst (snd kv)) (METRIC_TABLE mode_key).

(** Line 222: [next(k for k, v in options.items() if v['label'] ==
    selected_label)]; [None] stands for StopIteration. *)
Definition metric_of_label (mode_key : mode) (selected_label : string)
    : option string :=
  option_map fst
    (find (fun kv => (fst (snd kv) =? selected_label)%string)
          (METRIC_TABLE mode_key)).

(** Line 223. *)
Definition unit_of (mode_key : mode) (selected_metric_id : string) : result string :=
  match find (fun kv => (fst kv =? selected_metric_id)%string) (METRIC_TABLE mode_key) with
  | Some kv => Ok (snd (snd kv))
  | None => Raise (KeyError selected_metric_id)
  end.

(* ------------------------------------------------------------------ *)
(** ** Vocabulary of the further statements *)

(** The selection list as the page keeps it: at most three entries, each
    coloured by its position, with its selected season among its available
    ones. *)
Definition well_formed (players : list Player) : Prop :=
  (List.length players <= 3)%nat
  /\ (forall k p, nth_error players k = Some p -> color_idx p = k)
  /\ (forall p, In p players -> In (selected_season p) (available_seasons p)).

(** The NHL regular-season rows of a landing document. *)
Definition nhl_regular (s : SeasonTotal) : Prop :=
  leagueAbbrev s = Some "NHL"%string /\ gameTypeId s = Some 2.

Definition is_nhl_regular (s : SeasonTotal) : bool :=
  match leagueAbbrev s, gameTypeId s with
  | Some l, Some g => (l =? "NHL")%string && (g =? 2)
  | _, _ => false
  end.


(** A game log whose records all have a date, and no date twice. *)
Definition distinct_dates (log : list Raw.game) : Prop :=
  NoDup (map Raw.gameDate log).



(** The entry [add_player] builds from a search hit and a season list. *)
Definition new_entry (players : list Player) (player_data : SearchHit)
    (pid : Z) (seasons : list Z) (s0 : Z) (now : Q) : Player :=
  {| id := pid;
     name := get_or (hit_name player_data) "Unknown"%string;
     team := get_or (teamAbbrev player_data) "NHL"%string;
     selected_season := s0;
     available_seasons := seasons;
     color_idx := List.length players;
     instance_id := now |}.

(** The position [list.pop(idx)] removes, when it is inside the list. *)
Definition popped (n : nat) (idx : Z) : nat :=
  Z.to_nat (if idx <? 0 then idx + Z.of_nat n else idx).

(** The numeral that has the decimal digit [k] in front of [d]. *)
Definition digit_cons (k : nat) (d : Decimal.uint) : Decimal.uint :=
  match k with
  | 0 => Decimal.D0 d
  | 1 => Decimal.D1 d
  | 2 => Decimal.D2 d
  | 3 => Decimal.D3 d
  | 4 => Decimal.D4 d
  | 5 => Decimal.D5 d
  | 6 => Decimal.D6 d
  | 7 => Decimal.D7 d
  | 8 => Decimal.D8 d
  | _ => Decimal.D9 d
  end%nat.

(** The character of the decimal digit [k]. *)
Definition digit_char (k : nat) : ascii :=
  match k with
  | 0 => "0"
  | 1 => "1"
  | 2 => "2"
  | 3 => "3"
  | 4 => "4"
  | 5 => "5"
  | 6 => "6"
  | 7 => "7"
  | 8 => "8"
  | _ => "9"
  end%nat%char.

(** The number written with the decimal digits [ds], the first one the
    most significant. *)
Definition number_of_digits (ds : list nat) : Z :=
  fold_left (fun acc d => 10 * acc + Z.of_nat d) ds 0.

(** The minutes [parse_toi] gives for a clock cell. *)
Definition minutes_of (o : pyobj) : Q :=
  match parse_toi o with
  | Ok q => q
  | Raise _ => 0%Q
  end.

(** The row the normalization makes of record [r] of the log, game number
    apart. *)
Definition row_of (log : list Raw.game) (r : Raw.game) (n : Z) : Row :=
  {| date_obj := Raw.gameDate r;
     game_number := n;
     toi_val := minutes_of (clock_cell (Raw.toi r));
     pp_toi_val := minutes_of (clock_or_default Raw.powerPlayToi log r);
     sh_toi_val := minutes_of (clock_or_default Raw.shorthandedToi log r);
     goals := numeric_or_zero Raw.goals log r;
     assists := numeric_or_zero Raw.assists log r;
     points := numeric_or_zero Raw.points log r;
     shots := numeric_or_zero Raw.shots log r;
     plusMinus := numeric_or_zero Raw.plusMinus log r;
     powerPlayPoints := numeric_or_zero Raw.powerPlayPoints log r;
     shorthandedPoints := numeric_or_zero Raw.shorthandedPoints log r;
     powerPlayGoals := numeric_or_zero Raw.powerPlayGoals log r;
     shorthandedGoals := numeric_or_zero Raw.shorthandedGoals log r |}.

(** A row without its game number. *)
Definition unnumbered (row : Row) : Row :=
  {| date_obj := date_obj row;
     game_number := 0;
     toi_val := toi_val row;
     pp_toi_val := pp_toi_val row;
     sh_toi_val := sh_toi_val row;
     goals := goals row;
     assists := assists row;
     points := points row;
     shots := shots row;
     plusMinus := plusMinus row;
     powerPlayPoints := powerPlayPoints row;
     shorthandedPoints := shorthandedPoints row;
     powerPlayGoals := powerPlayGoals row;
     shorthandedGoals := shorthandedGoals row |}.

(** The even-strength points of a game: points less power-play and
    shorthanded points, absent when one of the three is. *)
Definition es_cell (r : Row) : cell :=
  match points r, powerPlayPoints r, shorthandedPoints r with
  | Some p, Some a, Some b => Some (p - (a + b))
  | _, _, _ => None
  end.

(** The counting metrics of cumulative mode that plot one column. *)
Definition COLUMN_METRICS : list (string * (Row -> cell)) :=
  [("points"%string, points); ("goals"%string, goals);
   ("assists"%string, assists); ("shots"%string, shots);
   ("plusMinus"%string, plusMinus); ("evenStrengthPoints"%string, es_cell)].

(** The value pandas plots for a running sum of integers at game [g]:
    NaN where the game's own cell is absent, else the sum of the cells
    present among the first [g]. *)
Definition partial_sum (l : list cell) (g : nat) : num :=
  match nth_error l (g - 1) with
  | Some (Some _) => Num (inject_Z (sum_cells (firstn g l)))
  | _ => NaN
  end.




(** The numeric columns of lines 248-250: the key of the feed and the
    column of the frame. *)
Definition NUMERIC_COLUMNS : list ((Raw.game -> cell) * (Row -> cell)) :=
  [(Raw.goals, goals); (Raw.assists, assists); (Raw.points, points);
   (Raw.shots, shots); (Raw.plusMinus, plusMinus);
   (Raw.powerPlayPoints, powerPlayPoints);
   (Raw.shorthandedPoints, shorthandedPoints);
   (Raw.powerPlayGoals, powerPlayGoals);
   (Raw.shorthandedGoals, shorthandedGoals)].

(* ================================================================== *)
(** * Properties *)

(* ------------------------------------------------------------------ *)
(** ** The helpers on concrete inputs *)

Example format_season_2023 : format_season 20232024 = "23-24"%string.
Proof. reflexivity. Qed.

Example parse_toi_1830 : parse_toi (PyStr "18:30") = Ok (18 + 30 / 60)%Q.
Proof. reflexivity. Qed.

Example parse_toi_spaces : parse_toi (PyStr " 12 : 30 ") = Ok (12 + 30 / 60)%Q.
Proof. reflexivity. Qed.

Example parse_toi_three_fields : parse_toi (PyStr "1:2:3") = Ok 0%Q.
Proof. reflexivity. Qed.

Example parse_toi_underscore : parse_toi (PyStr "1_0:3_0") = Ok (10 + 30 / 60)%Q.
Proof. reflexivity. Qed.

Example parse_toi_missing : parse_toi PyNone = Ok 0%Q /\ parse_toi PyNaN = Ok 0%Q.
Proof. split; reflexivity. Qed.

(* ------------------------------------------------------------------ *)
(** ** [int] and [split] on digit strings *)

Module PyStrFacts.
Import PyStr.















End PyStrFacts.

(* ------------------------------------------------------------------ *)
(** ** [parse_toi] *)

Lemma parse_toi_total (o : pyobj) : exists q, parse_toi o = Ok q.
Proof.
  unfold parse_toi. destruct (negb (truthy o)); [now exists 0%Q|].
  destruct o as [| |s]; simpl; try (now exists 0%Q).
  destruct (parse_toi_body s); simpl; eauto.
Qed.







(* ------------------------------------------------------------------ *)
(** ** Normalization: order and game numbers *)

Section SortValues.

Lemma date_leb_total a b : date_leb a b = false -> date_leb b a = true.
Proof.
  destruct a as [x|], b as [y|]; simpl; try reflexivity; try discriminate.
  intros H. apply Z.leb_gt in H. apply Z.leb_le. lia.
Qed.

Lemma date_le_trans a b c : date_le a b -> date_le b c -> date_le a c.
Proof.
  unfold date_le.
  destruct a as [x|], b as [y|], c as [z|]; simpl; try reflexivity;
    try discriminate.
  rewrite !Z.leb_le. lia.
Qed.

Lemma insert_by_date_perm r l : Permutation (insert_by_date r l) (r :: l).
Proof.
  induction l as [|h t IH]; simpl; [reflexivity|].
  destruct (date_leb (Raw.gameDate r) (Raw.gameDate h)); [reflexivity|].
  rewrite IH. apply perm_swap.
Qed.

Lemma sort_values_perm l : Permutation (sort_values l) l.
Proof.
  induction l as [|r t IH]; simpl; [reflexivity|].
  rewrite insert_by_date_perm. now constructor.
Qed.

Lemma insert_by_date_sorted r l :
  Sorted date_le (map Raw.gameDate l) ->
  Sorted date_le (map Raw.gameDate (insert_by_date r l)).
Proof.
  induction l as [|h t IH]; simpl; intros Hs.
  - repeat constructor.
  - destruct (date_leb (Raw.gameDate r) (Raw.gameDate h)) eqn:E.
    + simpl. constructor; [assumption|]. now constructor.
    + simpl. inversion Hs as [|? ? Ht Hh]; subst.
      constructor; [now apply IH|].
      destruct t as [|h' t']; simpl.
      * constructor. now apply date_leb_total.
      * destruct (date_leb (Raw.gameDate r) (Raw.gameDate h')); simpl;
          constructor.
        -- now apply date_leb_total.
        -- now inversion Hh.
Qed.

Lemma sort_values_sorted l : Sorted date_le (map Raw.gameDate (sort_values l)).
Proof.
  induction l as [|r t IH]; simpl; [constructor|].
  now apply insert_by_date_sorted.
Qed.

Lemma sort_values_strongly l :
  StronglySorted date_le (map Raw.gameDate (sort_values l)).
Proof.
  apply Sorted_StronglySorted; [|apply sort_values_sorted].
  intros a b c. apply date_le_trans.
Qed.

End SortValues.

Lemma normalize_row_ok log idx r :
  exists row, normalize_row log idx r = Ok row
    /\ date_obj row = Raw.gameDate r
    /\ game_number row = Z.of_nat idx + 1.
Proof.
  unfold normalize_row.
  destruct (parse_toi_total (clock_cell (Raw.toi r))) as [t ->].
  destruct (parse_toi_total (clock_or_default Raw.powerPlayToi log r)) as [pp ->].
  destruct (parse_toi_total (clock_or_default Raw.shorthandedToi log r)) as [sh ->].
  simpl. eexists. split; [reflexivity|]. split; reflexivity.
Qed.

Lemma normalize_rows_ok log l : forall idx,
  exists df, normalize_rows log idx l = Ok df
    /\ map date_obj df = map Raw.gameDate l
    /\ map game_number df
       = map (fun i => Z.of_nat i + 1) (seq idx (List.length l)).
Proof.
  induction l as [|r t IH]; intros idx; simpl.
  - exists []. repeat split.
  - destruct (normalize_row_ok log idx r) as (row & -> & Hd & Hg).
    destruct (IH (S idx)) as (rest & -> & Hds & Hgs).
    simpl. exists (row :: rest). split; [reflexivity|].
    simpl. rewrite Hd, Hg, Hds, Hgs. split; reflexivity.
Qed.

Lemma normalize_defined log :
  has_column Raw.gameDate log = true -> has_column Raw.toi log = true ->
  normalize log = normalize_rows log 0 (sort_values log).
Proof. intros H1 H2. unfold normalize. now rewrite H1, H2. Qed.

Lemma normalize_inv log df :
  normalize log = Ok df ->
  has_column Raw.gameDate log = true /\ has_column Raw.toi log = true
  /\ normalize_rows log 0 (sort_values log) = Ok df.
Proof.
  unfold normalize.
  destruct (has_column Raw.gameDate log); [|discriminate].
  destruct (has_column Raw.toi log); [|discriminate].
  simpl. auto.
Qed.

Lemma has_column_nonempty {A} (f : Raw.game -> option A) log :
  has_column f log = true -> log <> [].
Proof. destruct log; [discriminate|discriminate]. Qed.

Lemma nth_map_seq {A : Type} (f : nat -> A) (n k : nat) (d : A) :
  (k < n)%nat -> nth k (map f (seq 0 n)) d = f k.
Proof.
  intros Hk.
  rewrite (nth_indep _ d (f 0%nat)) by (rewrite length_map, length_seq; lia).
  rewrite (map_nth f), seq_nth by lia. reflexivity.
Qed.

(** C4.  A game log that has the date and the clock columns is normalized
    without error, and every normalized sequence is in ascending order of
    date (a permutation of the log's dates) and carries the game numbers
    1..N in that order, N being the number of records. *)
Theorem normalize_sorted_and_numbered (log : list Raw.game) :
  (has_column Raw.gameDate log = true -> has_column Raw.toi log = true ->
   exists df, normalize log = Ok df)
  /\ (forall df, normalize log = Ok df ->
        log <> []
        /\ List.length df = List.length log
        /\ map game_number df = one_to (List.length log)
        /\ StronglySorted date_le (map date_obj df)
        /\ Permutation (map date_obj df) (map Raw.gameDate log)
        /\ (forall i j, (i < j < List.length df)%nat ->
              nth i (map game_number df) 0 = Z.of_nat i + 1
              /\ nth i (map game_number df) 0 < nth j (map game_number df) 0
              /\ date_le (nth i (map date_obj df) None)
                         (nth j (map date_obj df) None))).
Proof.
  split.
  - intros H1 H2. rewrite (normalize_defined log H1 H2).
    destruct (normalize_rows_ok log (sort_values log) 0%nat) as (df & H & _).
    eauto.
  - intros df H. apply normalize_inv in H as (H1 & _ & H).
    destruct (normalize_rows_ok log (sort_values log) 0%nat) as (df' & H' & Hd & Hg).
    rewrite H in H'. injection H' as <-.
    assert (Hlen : List.length df = List.length log).
    { rewrite <- (length_map date_obj), Hd, length_map.
      apply Permutation_length, sort_values_perm. }
    assert (Hnum : map game_number df = one_to (List.length log)).
    { rewrite Hg. unfold one_to. f_equal. f_equal.
      apply Permutation_length, sort_values_perm. }
    assert (Hsorted : StronglySorted date_le (map date_obj df)).
    { rewrite Hd. apply sort_values_strongly. }
    split; [now apply (has_column_nonempty Raw.gameDate)|].
    split; [assumption|]. split; [assumption|]. split; [assumption|].
    split; [rewrite Hd; apply Permutation_map, sort_values_perm|].
    intros i j Hij. rewrite Hnum. unfold one_to.
    rewrite !nth_map_seq by lia. split; [reflexivity|]. split; [lia|].
    clear - Hsorted Hij.
    assert (Hl : (j < List.length (map date_obj df))%nat)
      by (rewrite length_map; lia).
    revert Hsorted i j Hij Hl. generalize (map date_obj df) as ds. clear.
    induction ds as [|d ds IH]; intros Hs i j Hij Hl; [simpl in Hl; lia|].
    inversion Hs as [|? ? Hs' Hall]; subst.
    destruct j as [|j]; [lia|]. destruct i as [|i].
    + simpl. rewrite Forall_forall in Hall. apply Hall, nth_In.
      simpl in Hl. lia.
    + simpl. apply IH; try assumption; simpl in Hl; lia.
Qed.

Lemma normalize_sorted_and_numbered_witness :
  exists df,
    normalize Sample.pair = Ok df
    /\ map game_number df = [1; 2]
    /\ map date_obj df = [Some 20240110; Some 20240112].
Proof.
  destruct (normalize_sorted_and_numbered Sample.pair) as [Hdef Hprop].
  destruct (Hdef eq_refl eq_refl) as [df Hdf].
  exists df. split; [exact Hdf|].
  destruct (Hprop df Hdf) as (_ & _ & Hnum & _).
  split; [exact Hnum|].
  rewrite (eq_refl : normalize Sample.pair = Ok (Sample.frame_of Sample.pair)) in Hdf.
  injection Hdf as <-. reflexivity.
Defined.

(* ------------------------------------------------------------------ *)
(** ** Loops in the [result] monad *)

Section MapM.
Context {A B : Type} (f : A -> result B).

Lemma mapM_total (l : list A) :
  (forall x, In x l -> exists y, f x = Ok y) -> exists ys, mapM f l = Ok ys.
Proof.
  induction l as [|a t IH]; intros H; simpl; [now exists []|].
  destruct (H a (or_introl eq_refl)) as [b ->].
  destruct IH as [bs ->]; [intros x Hx; apply H; now right|].
  simpl. eauto.
Qed.

Lemma mapM_length (l : list A) (ys : list B) :
  mapM f l = Ok ys -> List.length ys = List.length l.
Proof.
  revert ys. induction l as [|a t IH]; intros ys H; simpl in H.
  - now injection H as <-.
  - destruct (f a); [|discriminate]. simpl in H.
    destruct (mapM f t) as [bs|]; [|discriminate]. simpl in H.
    injection H as <-. simpl. f_equal. now apply IH.
Qed.

Lemma mapM_nth_error (l : list A) (ys : list B) (k : nat) (x : A) :
  mapM f l = Ok ys -> nth_error l k = Some x ->
  exists y, nth_error ys k = Some y /\ f x = Ok y.
Proof.
  revert ys k. induction l as [|a t IH]; intros ys k H Hk.
  - destruct k; discriminate.
  - simpl in H. destruct (f a) as [b|] eqn:Ea; [|discriminate]. simpl in H.
    destruct (mapM f t) as [bs|]; [|discriminate]. simpl in H.
    injection H as <-. destruct k as [|k]; simpl in *.
    + injection Hk as <-. eauto.
    + now apply IH.
Qed.

End MapM.

Lemma combine_seq_nth_error {A : Type} (l : list A) : forall a k x,
  nth_error l k = Some x ->
  nth_error (combine (seq a (List.length l)) l) k = Some ((a + k)%nat, x).
Proof.
  induction l as [|h t IH]; intros a k x H; [destruct k; discriminate|].
  destruct k as [|k]; simpl in *.
  - injection H as <-. now rewrite Nat.add_0_r.
  - rewrite (IH (S a) k x H). do 2 f_equal. lia.
Qed.

Lemma combine_seq_In {A : Type} (l : list A) (a k : nat) (x : A) :
  In (k, x) (combine (seq a (List.length l)) l) ->
  (a <= k)%nat /\ nth_error l (k - a) = Some x.
Proof.
  revert a. induction l as [|h t IH]; intros a H; [contradiction|].
  simpl in H. destruct H as [H|H].
  - injection H as <- <-. rewrite Nat.sub_diag. split; [lia|reflexivity].
  - apply IH in H as [H1 H2]. split; [lia|].
    replace (k - a)%nat with (S (k - S a)) by lia. exact H2.
Qed.

(* ------------------------------------------------------------------ *)
(** ** Running totals *)

Lemma cumsum_from_length l : forall acc,
  List.length (cumsum_from acc l) = List.length l.
Proof.
  induction l as [|[q|] t IH]; intros acc; simpl; [reflexivity| |];
    now rewrite IH.
Qed.

Lemma cumsum_from_nth l : forall acc k,
  (k < List.length l)%nat ->
  nth k (cumsum_from acc l) NaN
  = match nth_error l k with
    | Some (Num _) =>
        Num (fold_left (fun a x => match x with Num q => (a + q)%Q | NaN => a end)
               (firstn (S k) l) acc)
    | _ => NaN
    end.
Proof.
  induction l as [|[q|] t IH]; intros acc k Hk; simpl in Hk; [lia| |].
  - destruct k as [|k]; [reflexivity|].
    cbn [cumsum_from nth nth_error firstn fold_left]. apply IH. lia.
  - destruct k as [|k]; [reflexivity|].
    cbn [cumsum_from nth nth_error firstn fold_left]. apply IH. lia.
Qed.

Lemma cumsum_nth l g :
  (1 <= g <= List.length l)%nat ->
  nth (g - 1) (cumsum l) NaN = running_total l g.
Proof.
  intros Hg. unfold cumsum, running_total, sum_skipna.
  rewrite cumsum_from_nth by lia.
  replace (S (g - 1)) with g by lia. reflexivity.
Qed.

Lemma cumsum_nth_error l g :
  (1 <= g <= List.length l)%nat ->
  nth_error (cumsum l) (g - 1) = Some (running_total l g).
Proof.
  intros Hg. rewrite <- (cumsum_nth l g Hg).
  apply nth_error_nth'. unfold cumsum. rewrite cumsum_from_length. lia.
Qed.

Lemma Qeq_bool_inject_Z z : z <> 0 -> Qeq_bool (inject_Z z) 0 = false.
Proof.
  intros H. destruct (Qeq_bool (inject_Z z) 0) eqn:E; [|reflexivity].
  apply Qeq_bool_eq in E. unfold Qeq in E. simpl in E. lia.
Qed.

Lemma gt0_nonzero q : gt0 q = true -> Qeq_bool q 0 = false.
Proof.
  unfold gt0. intros H. apply Z.ltb_lt in H.
  destruct (Qeq_bool q 0) eqn:E; [|reflexivity].
  apply Qeq_bool_eq in E. unfold Qeq in E. simpl in E. lia.
Qed.

Lemma gt0_spec q : gt0 q = true <-> (0 < q)%Q.
Proof.
  unfold gt0, Qlt. simpl. rewrite Z.ltb_lt. lia.
Qed.

Lemma ndiv_nonzero a y :
  Qeq_bool y 0 = false -> ndiv a (Num y) = Ok (nquot a (Num y)).
Proof. intros H. unfold ndiv. rewrite H. now destruct a. Qed.

Lemma ndiv_game a g :
  ndiv a (Num (inject_Z (Z.of_nat g + 1)))
  = Ok (nquot a (Num (inject_Z (Z.of_nat g + 1)))).
Proof. apply ndiv_nonzero, Qeq_bool_inject_Z. lia. Qed.

Lemma ndiv_guarded a b :
  ngt0 b = true -> ndiv a b = Ok (nquot a b).
Proof.
  destruct b as [y|]; [|discriminate]. simpl. intros H.
  now apply ndiv_nonzero, gt0_nonzero.
Qed.

(* ------------------------------------------------------------------ *)
(** ** The plotted value and the rolling value as formulas *)

Lemma y_value_plotted mode_key m k cv cg cs cp csp :
  y_value mode_key m (Z.of_nat k + 1) cv cg cs cp csp
  = Ok (plotted mode_key m (Num (inject_Z (Z.of_nat k + 1))) cv cg cs cp csp).
Proof.
  unfold y_value, plotted, guarded_pct.
  destruct (mode_eqb mode_key projection), (in_list m RATE_METRICS),
    (m =? "shootingPct")%string, (m =? "evenStrengthPct")%string,
    (in_list m ["toi"; "esToi"]%string), (m =? "shots")%string;
    cbn [andb negb];
    try (destruct (ngt0 cs) eqn:G; [rewrite (ndiv_guarded _ _ G)|]);
    try (destruct (ngt0 cp) eqn:G'; [rewrite (ndiv_guarded _ _ G')|]);
    cbn [bind]; rewrite ?ndiv_game; cbn [bind]; rewrite ?ndiv_game;
    reflexivity.
Qed.

Lemma qdiv_guarded x y : gt0 y = true -> qdiv x y = Ok (x / y)%Q.
Proof. intros H. unfold qdiv. now rewrite (gt0_nonzero y H). Qed.

Lemma in_list_toi_shots m :
  in_list m ["toi"; "esToi"; "shots"]%string
  = in_list m ["toi"; "esToi"]%string || (m =? "shots")%string.
Proof.
  unfold in_list. simpl. rewrite !orb_false_r. now rewrite orb_assoc.
Qed.

Lemma rolling_value_rolled m k df sv :
  rolling_value m (k + 9) df sv = Ok (rolled_at m df sv (k + 10)).
Proof.
  unfold rolling_value, rolled_at, rolled, window_sum, window_cells.
  replace (k + 9 - 9)%nat with k by lia.
  replace (k + 9 + 1)%nat with (k + 10)%nat by lia.
  replace (k + 10 - 10)%nat with k by lia.
  rewrite in_list_toi_shots.
  destruct (in_list m RATE_METRICS),
    (m =? "shootingPct")%string, (m =? "evenStrengthPct")%string,
    (in_list m ["toi"; "esToi"]%string), (m =? "shots")%string;
    cbn [orb negb];
    repeat match goal with
      | |- context [gt0 ?q] =>
          let G := fresh "G" in
          destruct (gt0 q) eqn:G; [rewrite (qdiv_guarded _ _ G)|]
      end;
    reflexivity.
Qed.

(* ------------------------------------------------------------------ *)
(** ** The frame of a normalized sequence *)

Lemma normalize_numbered log df : normalize log = Ok df -> numbered df.
Proof.
  intros H k row Hk. apply normalize_inv in H as (_ & _ & H).
  destruct (normalize_rows_ok log (sort_values log) 0%nat) as (df' & H' & _ & Hg).
  rewrite H in H'. injection H' as <-.
  assert (Hlt : (k < List.length df)%nat)
    by (apply nth_error_Some; rewrite Hk; discriminate).
  assert (Hlen : List.length df = List.length (sort_values log)).
  { rewrite <- (length_map game_number), Hg, length_map, length_seq. reflexivity. }
  pose proof (map_nth_error game_number k df Hk) as Hm.
  apply (nth_error_nth _ _ 0) in Hm.
  rewrite Hg, nth_map_seq in Hm by lia. now symmetry.
Qed.

Lemma y_values_defined mode_key m df :
  numbered df ->
  exists ys,
    y_values mode_key m df (cumsum (map (stat_value m) df)) (cumsum (goals_col df))
      (cumsum (shots_col df)) (cumsum (points_col df)) (cumsum (special_col df))
    = Ok ys
    /\ List.length ys = List.length df
    /\ forall g, (1 <= g <= List.length df)%nat ->
         nth_error ys (g - 1) = Some (plotted_at mode_key m df g).
Proof.
  intros Hn. unfold y_values.
  match goal with |- context [mapM ?f ?l] =>
    destruct (mapM_total f l) as [ys Hys] end.
  { intros [k row] Hin. apply combine_seq_In in Hin as [_ Hk].
    rewrite Nat.sub_0_r in Hk. rewrite (Hn k row Hk), y_value_plotted. eauto. }
  exists ys. split; [exact Hys|].
  assert (Hlen : List.length ys = List.length df).
  { rewrite (mapM_length _ _ _ Hys), length_combine, length_seq. lia. }
  split; [exact Hlen|]. intros g Hg.
  destruct (nth_error df (g - 1)) as [row|] eqn:Hrow;
    [|apply nth_error_None in Hrow; lia].
  pose proof (combine_seq_nth_error df 0 (g - 1) row Hrow) as Hc.
  destruct (mapM_nth_error _ _ _ _ _ Hys Hc) as (y & Hy & Hv).
  rewrite Hy. f_equal. simpl in Hv.
  rewrite (Hn _ _ Hrow), y_value_plotted in Hv. injection Hv as <-.
  unfold plotted_at, goals_col, shots_col, points_col, special_col.
  rewrite !cumsum_nth by (rewrite length_map; lia).
  replace (Z.of_nat (g - 1) + 1) with (Z.of_nat g) by lia. reflexivity.
Qed.

Lemma roll_y_defined m df sv :
  exists roll,
    roll_y m df sv = Ok roll
    /\ List.length roll = List.length df
    /\ forall g, (1 <= g <= List.length df)%nat ->
         nth_error roll (g - 1)
         = Some (if (g <? 10)%nat then None else Some (rolled_at m df sv g)).
Proof.
  unfold roll_y.
  match goal with |- context [mapM ?f ?l] =>
    destruct (mapM_total f l) as [roll Hr] end.
  { intros idx _. destruct (idx <? 9)%nat eqn:E; [eauto|].
    apply Nat.ltb_ge in E. replace idx with (idx - 9 + 9)%nat by lia.
    rewrite rolling_value_rolled. simpl. eauto. }
  exists roll. split; [exact Hr|].
  assert (Hlen : List.length roll = List.length df)
    by (rewrite (mapM_length _ _ _ Hr), length_seq; reflexivity).
  split; [exact Hlen|]. intros g Hg.
  assert (Hs : nth_error (seq 0 (List.length df)) (g - 1) = Some (g - 1)%nat).
  { rewrite (nth_error_nth' _ 0%nat) by (rewrite length_seq; lia).
    rewrite seq_nth by lia. reflexivity. }
  destruct (mapM_nth_error _ _ _ _ _ Hr Hs) as (y & Hy & Hv).
  rewrite Hy. f_equal.
  destruct (g - 1 <? 9)%nat eqn:E.
  - apply Nat.ltb_lt in E. injection Hv as <-.
    replace (g <? 10)%nat with true by (symmetry; apply Nat.ltb_lt; lia).
    reflexivity.
  - apply Nat.ltb_ge in E.
    replace (g <? 10)%nat with false by (symmetry; apply Nat.ltb_ge; lia).
    replace (g - 1)%nat with (g - 10 + 9)%nat in Hv by lia.
    rewrite rolling_value_rolled in Hv. simpl in Hv. injection Hv as <-.
    replace (g - 10 + 10)%nat with g by lia. reflexivity.
Qed.

(** The frame exists for every normalized sequence, every mode and every
    metric id, and its columns are the formulas above. *)
Lemma series_defined mode_key m df name i label :
  numbered df -> (i < 3)%nat ->
  exists F,
    series mode_key m df name i label = Ok F
    /\ rows F = df
    /\ stat_val F = map (stat_value m) df
    /\ cum_val F = cumsum (map (stat_value m) df)
    /\ cum_goals F = cumsum (goals_col df)
    /\ cum_shots F = cumsum (shots_col df)
    /\ cum_points F = cumsum (points_col df)
    /\ cum_pp_sh_pts F = cumsum (special_col df)
    /\ List.length (y_final F) = List.length df
    /\ (forall g, (1 <= g <= List.length df)%nat ->
          nth_error (y_final F) (g - 1) = Some (plotted_at mode_key m df g))
    /\ (mode_key <> projection -> y_rolling F = None)
    /\ (mode_key = projection ->
          exists roll, y_rolling F = Some roll
            /\ List.length roll = List.length df
            /\ forall g, (1 <= g <= List.length df)%nat ->
                 nth_error roll (g - 1)
                 = Some (if (g <? 10)%nat then None
                         else Some (rolled_at m df (map (stat_value m) df) g))).
Proof.
  intros Hn Hi. unfold series.
  destruct (y_values_defined mode_key m df Hn) as (ys & Hys & Hlen & Hy).
  fold (goals_col df) (shots_col df) (points_col df) (special_col df).
  rewrite Hys. cbn [bind].
  assert (Hc : exists c, color_at i = Ok c).
  { destruct i as [|[|[|i]]]; try (eexists; reflexivity). lia. }
  destruct Hc as [c ->]. cbn [bind].
  destruct (roll_y_defined m df (map (stat_value m) df)) as (roll & Hr & Hrl & Hrv).
  destruct mode_key; cbn [mode_eqb bind]; rewrite ?Hr; cbn [bind];
    eexists; (split; [reflexivity|]);
    cbn [rows stat_val cum_val cum_goals cum_shots cum_points cum_pp_sh_pts
         y_final y_rolling];
    do 7 (split; [reflexivity|]);
    (split; [exact Hlen|]); (split; [exact Hy|]); split.
  - reflexivity.
  - discriminate.
  - congruence.
  - intros _. exists roll. auto.
  - reflexivity.
  - discriminate.
Qed.

(* ------------------------------------------------------------------ *)
(** ** Sums of non-negative values *)



Lemma sum_from_nonneg l : forall acc,
  nonneg_values l -> (0 <= acc)%Q ->
  (0 <= fold_left (fun a x => match x with Num q => (a + q)%Q | NaN => a end) l acc)%Q.
Proof.
  induction l as [|[q|] t IH]; intros acc H Hacc; simpl; [assumption| |];
    inversion H; subst; apply IH; try assumption.
  lra.
Qed.

Lemma sum_skipna_nonneg l : nonneg_values l -> (0 <= sum_skipna l)%Q.
Proof. intros H. apply sum_from_nonneg; [assumption|lra]. Qed.

Lemma nonneg_values_firstn l g : nonneg_values l -> nonneg_values (firstn g l).
Proof.
  unfold nonneg_values. revert g.
  induction l as [|x t IH]; intros g H; destruct g; simpl; try constructor.
  - now inversion H.
  - apply IH. now inversion H.
Qed.

Lemma running_total_nonneg l g s :
  nonneg_values l -> running_total l g = Num s -> (0 <= s)%Q.
Proof.
  intros H. unfold running_total.
  destruct (nth_error l (g - 1)) as [[q|]|]; try discriminate.
  intros E. injection E as <-. now apply sum_skipna_nonneg, nonneg_values_firstn.
Qed.

Lemma running_total_present l g q :
  nth_error l (g - 1) = Some (Num q) ->
  running_total l g = Num (sum_skipna (firstn g l)).
Proof. intros H. unfold running_total. now rewrite H. Qed.


(* ------------------------------------------------------------------ *)
(** ** Sample game logs *)

Example sample_normalized : normalize Sample.season = Ok Sample.df.
Proof. reflexivity. Qed.

Example sample_game_numbers :
  map game_number Sample.df = [1; 2; 3; 4; 5; 6; 7; 8; 9; 10; 11].
Proof. reflexivity. Qed.

(* ------------------------------------------------------------------ *)
(** ** Projection mode *)

Lemma plotted_counting m g cv cg cs cp csp :
  In m COUNTING_METRICS ->
  plotted projection m g cv cg cs cp csp = nmul (nquot cv g) (Num 82%Q).
Proof. intros [<-|[<-|[<-|[<-|[]]]]]; reflexivity. Qed.

Lemma rolled_counting m sv sg ss sp ssp :
  In m COUNTING_METRICS -> rolled m sv sg ss sp ssp = (sv / 10 * 82)%Q.
Proof. intros [<-|[<-|[<-|[<-|[]]]]]; reflexivity. Qed.

Lemma plotted_average mode_key m g cv cg cs cp csp :
  In m ["toi"; "esToi"]%string \/ (m = "shots"%string /\ mode_key = projection) ->
  plotted mode_key m g cv cg cs cp csp = nquot cv g.
Proof.
  intros [[<-|[<-|[]]]|[-> ->]]; try reflexivity; destruct mode_key; reflexivity.
Qed.

Lemma rolled_average m sv sg ss sp ssp :
  In m ["toi"; "esToi"; "shots"]%string -> rolled m sv sg ss sp ssp = (sv / 10)%Q.
Proof. intros [<-|[<-|[<-|[]]]]; reflexivity. Qed.

Lemma plotted_shooting mode_key g cv cg cs cp csp :
  plotted mode_key "shootingPct" g cv cg cs cp csp = guarded_pct cg cs.
Proof. destruct mode_key; reflexivity. Qed.

Lemma plotted_even_strength mode_key g cv cg cs cp csp :
  plotted mode_key "evenStrengthPct" g cv cg cs cp csp
  = guarded_pct (nsub cp csp) cp.
Proof. destruct mode_key; reflexivity. Qed.

Lemma iloc_window_length {A : Type} (l : list A) g :
  (10 <= g <= List.length l)%nat -> List.length (iloc (g - 10) g l) = 10%nat.
Proof. intros H. unfold iloc. rewrite length_skipn, length_firstn. lia. Qed.

(** C1.  In projection mode every normalized sequence has a frame.  At each
    game g of 1..N the column [cum_val] holds the running total of the
    per-game scalar.  For a counting metric the plotted value is
    (cum_val[g] / g) * 82, the rolling value of games 1..9 is [None], and
    from game 10 on it is (window_sum / 10) * 82 over the ten games
    g-9..g.  For the rate metrics neither value is multiplied by 82. *)
Theorem projection_pace_and_rolling
    (log : list Raw.game) (df : list Row) (m name label : string) (i : nat) :
  normalize log = Ok df -> (i < 3)%nat ->
  exists F roll,
    series projection m df name i label = Ok F
    /\ y_rolling F = Some roll
    /\ stat_val F = map (stat_value m) df
    /\ forall g, (1 <= g <= List.length df)%nat ->
         let gq := Num (inject_Z (Z.of_nat g)) in
         let cum := running_total (stat_val F) g in
         nth_error (cum_val F) (g - 1) = Some cum
         /\ (In m COUNTING_METRICS ->
               nth_error (y_final F) (g - 1) = Some (nmul (nquot cum gq) (Num 82%Q))
               /\ ((g < 10)%nat -> nth_error roll (g - 1) = Some None)
               /\ ((10 <= g)%nat ->
                     nth_error roll (g - 1)
                     = Some (Some (window_sum (stat_val F) g / 10 * 82)%Q)
                     /\ List.length (iloc (g - 10) g (stat_val F)) = 10%nat))
         /\ (In m ["toi"; "esToi"; "shots"]%string ->
               nth_error (y_final F) (g - 1) = Some (nquot cum gq)
               /\ ((10 <= g)%nat ->
                     nth_error roll (g - 1)
                     = Some (Some (window_sum (stat_val F) g / 10)%Q)))
         /\ (m = "shootingPct"%string ->
               nth_error (y_final F) (g - 1)
               = Some (guarded_pct (running_total (goals_col df) g)
                                   (running_total (shots_col df) g))
               /\ ((10 <= g)%nat ->
                     nth_error roll (g - 1)
                     = Some (Some (guarded_pct_q (window_cells (map goals df) g)
                                                 (window_cells (map shots df) g)))))
         /\ (m = "evenStrengthPct"%string ->
               nth_error (y_final F) (g - 1)
               = Some (guarded_pct
                         (nsub (running_total (points_col df) g)
                               (running_total (special_col df) g))
                         (running_total (points_col df) g))
               /\ ((10 <= g)%nat ->
                     nth_error roll (g - 1)
                     = Some (Some (guarded_pct_q
                         (window_cells (map points df) g
                          - inject_Z
                              (sum_cells (iloc (g - 10) g (map powerPlayPoints df))
                               + sum_cells (iloc (g - 10) g (map shorthandedPoints df))))
                         (window_cells (map points df) g))))).
Proof.
  intros Hnorm Hi.
  destruct (series_defined projection m df name i label
              (normalize_numbered log df Hnorm) Hi)
    as (F & HF & _ & Hsv & Hcv & _ & _ & _ & _ & _ & Hy & _ & Hroll).
  destruct (Hroll eq_refl) as (roll & Hr & _ & Hrv).
  exists F, roll. split; [exact HF|]. split; [exact Hr|]. split; [exact Hsv|].
  intros g Hg. cbn zeta.
  assert (Hlen : (1 <= g <= List.length (map (stat_value m) df))%nat)
    by (rewrite length_map; exact Hg).
  rewrite Hcv, Hsv. split; [now apply cumsum_nth_error|].
  rewrite (Hy g Hg), (Hrv g Hg). unfold plotted_at, rolled_at.
  split; [|split; [|split]].
  - intros Hm. rewrite (plotted_counting m _ _ _ _ _ _ Hm).
    split; [reflexivity|]. split.
    + intros Hlt.
      replace (g <? 10)%nat with true by (symmetry; apply Nat.ltb_lt; lia).
      reflexivity.
    + intros Hge.
      replace (g <? 10)%nat with false by (symmetry; apply Nat.ltb_ge; lia).
      rewrite (rolled_counting m _ _ _ _ _ Hm).
      split; [reflexivity|]. apply iloc_window_length. lia.
  - intros Hm. rewrite plotted_average.
    2:{ destruct Hm as [<-|[<-|[<-|[]]]]; simpl; auto. }
    split; [reflexivity|]. intros Hge.
    replace (g <? 10)%nat with false by (symmetry; apply Nat.ltb_ge; lia).
    now rewrite (rolled_average m _ _ _ _ _ Hm).
  - intros ->. rewrite plotted_shooting. split; [reflexivity|]. intros Hge.
    replace (g <? 10)%nat with false by (symmetry; apply Nat.ltb_ge; lia).
    reflexivity.
  - intros ->. rewrite plotted_even_strength. split; [reflexivity|]. intros Hge.
    replace (g <? 10)%nat with false by (symmetry; apply Nat.ltb_ge; lia).
    reflexivity.
Qed.

Lemma projection_pace_and_rolling_witness :
  exists F roll,
    series projection "points" Sample.df "Player" 0 "23-24" = Ok F
    /\ y_rolling F = Some roll
    /\ nth_error (y_final F) 10
       = Some (nmul (nquot (running_total (stat_val F) 11) (Num (inject_Z 11)))
                    (Num 82%Q))
    /\ nth_error roll 8 = Some None
    /\ nth_error roll 9 = Some (Some (window_sum (stat_val F) 10 / 10 * 82)%Q).
Proof.
  destruct (projection_pace_and_rolling Sample.season Sample.df
              "points" "Player" "23-24" 0 eq_refl ltac:(lia))
    as (F & roll & HF & HR & _ & H).
  exists F, roll. split; [exact HF|]. split; [exact HR|].
  assert (Hm : In "points"%string COUNTING_METRICS) by (simpl; auto).
  split; [|split].
  - destruct (H 11%nat ltac:(simpl; lia)) as (_ & Hc & _).
    exact (proj1 (Hc Hm)).
  - destruct (H 9%nat ltac:(simpl; lia)) as (_ & Hc & _).
    apply (proj1 (proj2 (Hc Hm))). lia.
  - destruct (H 10%nat ltac:(simpl; lia)) as (_ & Hc & _).
    apply (proj1 (proj2 (proj2 (Hc Hm)) ltac:(lia))).
Defined.

(** Scenario B of the specification: eleven games of one point each. *)
Example scenario_B :
  exists F roll,
    series projection "points" Sample.df "Player" 0 "23-24" = Ok F
    /\ y_rolling F = Some roll
    /\ map (fun y => match y with Num q => Some (Qred q) | NaN => None end) (y_final F)
       = repeat (Some 82%Q) 11
    /\ map (option_map Qred) roll = repeat None 9 ++ [Some 82%Q; Some 82%Q].
Proof.
  eexists. eexists. split; [reflexivity|]. split; [reflexivity|].
  split; reflexivity.
Qed.

(* ------------------------------------------------------------------ *)
(** ** Rate metrics *)

Lemma guarded_pct_positive a s :
  (0 < s)%Q -> guarded_pct (Num a) (Num s) = Num (a / s * 100)%Q.
Proof.
  intros H. unfold guarded_pct. simpl.
  now rewrite (proj2 (gt0_spec s) H).
Qed.

Lemma guarded_pct_not_positive a s :
  ~ (0 < s)%Q -> guarded_pct a (Num s) = Num 0%Q.
Proof.
  intros H. unfold guarded_pct. simpl.
  destruct (gt0 s) eqn:E; [|reflexivity].
  apply gt0_spec in E. contradiction.
Qed.

Lemma guarded_pct_nan a : guarded_pct a NaN = Num 0%Q.
Proof. reflexivity. Qed.

Lemma counts_nonneg_values f df :
  counts f df -> nonneg_values (map (fun r => of_cell (f r)) df).
Proof.
  intros H. unfold nonneg_values. apply Forall_forall. intros x Hx.
  apply in_map_iff in Hx as (row & <- & Hin).
  destruct (f row) as [z|] eqn:E; simpl; [|exact I].
  specialize (H row z Hin E). unfold Qle. simpl. lia.
Qed.

(** C2.  For every normalized sequence, mode and metric the frame is
    computed without error (no division has a zero divisor).  At each game
    g the shooting percentage is cum_goals[g] / cum_shots[g] * 100 when
    cum_shots[g] > 0 and 0 otherwise, in particular when cum_shots[g] is 0;
    the even-strength percentage is
    (cum_points[g] - cum_special[g]) / cum_points[g] * 100 when
    cum_points[g] > 0 and 0 otherwise.  The cum columns are the running
    totals over games 1..g, and those of shots and points are not negative
    when the per-game counts are not. *)
Theorem rate_metrics_from_cumulative_sums
    (log : list Raw.game) (df : list Row) (mode_key : mode)
    (m name label : string) (i : nat) :
  normalize log = Ok df -> (i < 3)%nat ->
  exists F,
    series mode_key m df name i label = Ok F
    /\ forall g, (1 <= g <= List.length df)%nat ->
         let cg := running_total (goals_col df) g in
         let cs := running_total (shots_col df) g in
         let cp := running_total (points_col df) g in
         let csp := running_total (special_col df) g in
         nth_error (cum_goals F) (g - 1) = Some cg
         /\ nth_error (cum_shots F) (g - 1) = Some cs
         /\ nth_error (cum_points F) (g - 1) = Some cp
         /\ nth_error (cum_pp_sh_pts F) (g - 1) = Some csp
         /\ (m = "shootingPct"%string ->
               exists y, nth_error (y_final F) (g - 1) = Some y
                 /\ (forall a s, cg = Num a -> cs = Num s -> (0 < s)%Q ->
                       y = Num (a / s * 100)%Q)
                 /\ (forall s, cs = Num s -> (s == 0)%Q -> y = Num 0%Q)
                 /\ (forall s, cs = Num s -> ~ (0 < s)%Q -> y = Num 0%Q))
         /\ (m = "evenStrengthPct"%string ->
               exists y, nth_error (y_final F) (g - 1) = Some y
                 /\ (forall p sp, cp = Num p -> csp = Num sp -> (0 < p)%Q ->
                       y = Num ((p - sp) / p * 100)%Q)
                 /\ (forall p, cp = Num p -> (p == 0)%Q -> y = Num 0%Q)
                 /\ (forall p, cp = Num p -> ~ (0 < p)%Q -> y = Num 0%Q))
         /\ (counts shots df -> forall s, cs = Num s -> (0 <= s)%Q)
         /\ (counts points df -> forall p, cp = Num p -> (0 <= p)%Q).
Proof.
  intros Hnorm Hi.
  destruct (series_defined mode_key m df name i label
              (normalize_numbered log df Hnorm) Hi)
    as (F & HF & _ & _ & _ & Hcg & Hcs & Hcp & Hcsp & _ & Hy & _).
  exists F. split; [exact HF|]. intros g Hg. cbn zeta.
  rewrite Hcg, Hcs, Hcp, Hcsp.
  assert (Hl : forall f : Row -> num,
             (1 <= g <= List.length (map f df))%nat)
    by (intros f; rewrite length_map; exact Hg).
  repeat (split; [apply cumsum_nth_error, Hl|]).
  rewrite (Hy g Hg). unfold plotted_at.
  split; [|split; [|split]].
  - intros ->. rewrite plotted_shooting. eexists. split; [reflexivity|].
    split; [|split].
    + intros a s -> -> Hs. now apply guarded_pct_positive.
    + intros s -> Hs. apply guarded_pct_not_positive. rewrite Hs. lra.
    + intros s -> Hs. now apply guarded_pct_not_positive.
  - intros ->. rewrite plotted_even_strength. eexists. split; [reflexivity|].
    split; [|split].
    + intros p sp -> -> Hp. simpl nsub. now apply guarded_pct_positive.
    + intros p -> Hp. apply guarded_pct_not_positive. rewrite Hp. lra.
    + intros p -> Hp. now apply guarded_pct_not_positive.
  - intros Hc s Hs. eapply running_total_nonneg; [|exact Hs].
    now apply counts_nonneg_values.
  - intros Hc p Hp. eapply running_total_nonneg; [|exact Hp].
    now apply counts_nonneg_values.
Qed.

Lemma rate_metrics_from_cumulative_sums_witness :
  exists F,
    series cumulative "shootingPct" (Sample.frame_of Sample.pair)
      "Player" 0 "23-24" = Ok F
    /\ exists y, nth_error (y_final F) 1 = Some y
         /\ (forall a s,
               running_total (goals_col (Sample.frame_of Sample.pair)) 2 = Num a ->
               running_total (shots_col (Sample.frame_of Sample.pair)) 2 = Num s ->
               (0 < s)%Q -> y = Num (a / s * 100)%Q).
Proof.
  destruct (rate_metrics_from_cumulative_sums Sample.pair
              (Sample.frame_of Sample.pair) cumulative
              "shootingPct" "Player" "23-24" 0 eq_refl ltac:(lia))
    as (F & HF & H).
  exists F. split; [exact HF|].
  destruct (H 2%nat ltac:(simpl; lia)) as (_ & _ & _ & _ & Hs & _).
  destruct (Hs eq_refl) as (y & Hy & Hpos & _).
  exists y. split; [exact Hy|exact Hpos].
Defined.

(** Scenario A of the specification: one goal on three shots, then none on
    two, gives 33.33 and 20. *)
Example scenario_A :
  exists F,
    series cumulative "shootingPct" (Sample.frame_of Sample.pair)
      "Player" 0 "23-24" = Ok F
    /\ map (fun y => match y with Num q => Some (Qred q) | NaN => None end) (y_final F)
       = [Some (100 # 3); Some (20 # 1)].
Proof. eexists. split; reflexivity. Qed.

(* ------------------------------------------------------------------ *)
(** ** Cumulative mode *)

Lemma plotted_cumulative m g cv cg cs cp csp :
  In m (METRIC_OPTIONS cumulative) ->
  plotted cumulative m g cv cg cs cp csp = cv.
Proof. intros [<-|[<-|[<-|[<-|[<-|[<-|[]]]]]]]; reflexivity. Qed.



(* ------------------------------------------------------------------ *)
(** ** Distribution mode *)

(** C3.  For the totals of every frame the even-strength, power-play and
    shorthanded buckets add up to the season total, for goals, points and
    assists, the assists of a bucket being its points less its goals; the
    season totals are the sums of the columns, and the situational metrics
    report these buckets. *)
Theorem distribution_buckets_sum_to_totals (df : list Row) :
  let t := totals df in
  es_goals t + pp_goals t + sh_goals t = t_goals t
  /\ es_points t + pp_points t + sh_points t = t_points t
  /\ es_assists t + pp_assists t + sh_assists t = t_assists t
  /\ pp_assists t = pp_points t - pp_goals t
  /\ sh_assists t = sh_points t - sh_goals t
  /\ es_assists t = t_assists t - pp_assists t - sh_assists t
  /\ t_goals t = sum_cells (map goals df)
  /\ t_points t = sum_cells (map points df)
  /\ t_assists t = sum_cells (map assists df)
  /\ dist_choice "goalsSit" t = Some (SITUATIONS, [es_goals t; pp_goals t; sh_goals t])
  /\ dist_choice "pointsSit" t = Some (SITUATIONS, [es_points t; pp_points t; sh_points t])
  /\ dist_choice "assistsSit" t
     = Some (SITUATIONS, [es_assists t; pp_assists t; sh_assists t]).
Proof.
  cbn zeta. unfold totals. cbn [es_goals pp_goals sh_goals t_goals es_points
    pp_points sh_points t_points es_assists pp_assists sh_assists t_assists].
  repeat split; try reflexivity; lia.
Qed.

(** Scenario C of the specification, on one record that carries the season
    totals. *)
Example scenario_C :
  let row := {| date_obj := Some 1; game_number := 1;
                toi_val := 0; pp_toi_val := 0; sh_toi_val := 0;
                goals := Some 20; assists := Some 30; points := Some 50;
                shots := Some 100; plusMinus := Some 0;
                powerPlayPoints := Some 10; shorthandedPoints := Some 3;
                powerPlayGoals := Some 5; shorthandedGoals := Some 2 |} in
  es_goals (totals [row]) = 13
  /\ pp_assists (totals [row]) = 5
  /\ sh_assists (totals [row]) = 1
  /\ es_assists (totals [row]) = 24.
Proof. repeat split. Qed.

(* ------------------------------------------------------------------ *)
(** ** Missing fields and empty seasons *)

(** C6, on the code.  A log whose records have no [toi] key is not
    normalized: [df['toi']] raises KeyError.  A record without [points]
    in a log where other records have it is not read as 0: its plotted value
    is NaN. *)
Theorem missing_field_not_defaulted :
  normalize [Faulty.dated 20240110] = Raise (KeyError "toi")
  /\ launch_analysis cumulative "points" (Faulty.serving [Faulty.dated 20240110])
       [Faulty.player] = Raise (KeyError "toi")
  /\ exists F,
       series cumulative "points" (Sample.frame_of Faulty.gap) "Player" 0 "23-24"
       = Ok F
       /\ map points (rows F) = [Some 1; None]
       /\ y_final F = [Num (0 + inject_Z 1); NaN].
Proof.
  split; [reflexivity|]. split; [reflexivity|].
  eexists. split; [reflexivity|]. split; reflexivity.
Qed.

(** What the normalization does default: a numeric column that no record
    has is 0 in every row, and a power-play or shorthanded clock that is
    absent counts as no time. *)
Lemma absent_columns_defaulted (log : list Raw.game) (df : list Row) :
  normalize log = Ok df ->
  (has_column Raw.goals log = false -> Forall (fun r => goals r = Some 0) df)
  /\ (has_column Raw.points log = false -> Forall (fun r => points r = Some 0) df)
  /\ (has_column Raw.shots log = false -> Forall (fun r => shots r = Some 0) df)
  /\ (has_column Raw.powerPlayToi log = false ->
        Forall (fun r => pp_toi_val r = (inject_Z 0 + inject_Z 0 / 60)%Q) df).
Proof.
  intros H. apply normalize_inv in H as (_ & _ & H).
  revert df H. generalize 0%nat as idx. generalize (sort_values log) as l.
  induction l as [|r t IH]; intros idx df H; simpl in H.
  - injection H as <-. repeat split; intros _; constructor.
  - unfold normalize_row in H at 1.
    destruct (parse_toi_total (clock_cell (Raw.toi r))) as [q1 E1].
    destruct (parse_toi_total (clock_or_default Raw.powerPlayToi log r)) as [q2 E2].
    destruct (parse_toi_total (clock_or_default Raw.shorthandedToi log r)) as [q3 E3].
    rewrite E1, E2, E3 in H. cbn [bind] in H.
    destruct (normalize_rows log (S idx) t) as [rest|] eqn:Er; [|discriminate].
    cbn [bind] in H. injection H as <-.
    destruct (IH (S idx) rest Er) as (Hg & Hp & Hs & Hc).
    repeat split; intros Hcol; constructor; auto; cbn;
      unfold numeric_or_zero; rewrite ?Hcol; try reflexivity.
    unfold clock_or_default in E2. rewrite Hcol in E2.
    vm_compute in E2. now injection E2 as <-.
Qed.

Lemma process_empty_log mode_key m get i p :
  get (id p) (selected_season p) = Some {| gameLog := Some [] |} ->
  process_selection mode_key m get i p = Raise (KeyError "gameDate").
Proof. intros H. unfold process_selection. now rewrite H. Qed.

Lemma process_players_empty_log mode_key m get p players : forall i,
  In p players ->
  get (id p) (selected_season p) = Some {| gameLog := Some [] |} ->
  exists e, process_players mode_key m get i players = Raise e.
Proof.
  induction players as [|a t IH]; intros i Hin Hget; [contradiction|].
  simpl. destruct Hin as [->|Hin].
  - rewrite (process_empty_log _ _ _ _ _ Hget). simpl. eauto.
  - destruct (process_selection mode_key m get i a); simpl; [|eauto].
    destruct (IH (S i) Hin Hget) as [e ->]. simpl. eauto.
Qed.

(** One empty season among the selections ends the whole run in an error. *)
Lemma empty_season_aborts_run mode_key m get p players :
  In p players ->
  get (id p) (selected_season p) = Some {| gameLog := Some [] |} ->
  exists e, launch_analysis mode_key m get players = Raise e.
Proof.
  intros Hin Hget. unfold launch_analysis.
  destruct players as [|a t]; [contradiction|].
  destruct (process_players_empty_log mode_key m get p (a :: t) 0%nat Hin Hget)
    as [e ->].
  simpl. eauto.
Qed.

(** C7, on the code.  A game log of zero games passes the guard of line 238
    and [df['gameDate']] raises KeyError on the empty frame: the run ends in
    an error, whatever the mode, the metric and the player. *)
Theorem empty_season_raises :
  forall mode_key m p,
    launch_analysis mode_key m (Faulty.serving []) [p]
    = Raise (KeyError "gameDate").
Proof. intros mode_key m p. reflexivity. Qed.

(** A selection whose fetch gave nothing, or a document without [gameLog],
    is skipped without error. *)
Lemma failed_fetch_skipped mode_key m get i p :
  (get (id p) (selected_season p) = None
   \/ get (id p) (selected_season p) = Some {| gameLog := None |}) ->
  process_selection mode_key m get i p = Ok None.
Proof. intros [H|H]; unfold process_selection; now rewrite H. Qed.

(* ------------------------------------------------------------------ *)
(** ** Metric ids outside the enumerations *)

Lemma orb_false_split a b : a || b = false -> a = false /\ b = false.
Proof. destruct a, b; auto. Qed.

Ltac split_orb H :=
  repeat match type of H with
    | _ || _ = false =>
        let H1 := fresh "E" in
        apply orb_false_split in H as [H1 H]
    end.

Lemma stat_value_unknown m row :
  in_list m SERIES_METRICS = false -> stat_value m row = Num 0%Q.
Proof.
  unfold in_list, SERIES_METRICS. cbn [existsb]. intros H. split_orb H.
  unfold stat_value.
  repeat match goal with E : (m =? _)%string = false |- _ => rewrite E; clear E end.
  reflexivity.
Qed.

Lemma plotted_unknown mode_key m g cv cg cs cp csp :
  in_list m SERIES_METRICS = false ->
  plotted mode_key m g cv cg cs cp csp
  = if mode_eqb mode_key projection then nmul (nquot cv g) (Num 82%Q) else cv.
Proof.
  unfold in_list, SERIES_METRICS. cbn [existsb]. intros H. split_orb H.
  unfold plotted, in_list, RATE_METRICS. cbn [existsb].
  repeat match goal with E : (m =? _)%string = false |- _ => rewrite E; clear E end.
  cbn [orb andb negb]. now rewrite andb_true_r.
Qed.

Lemma sum_skipna_zeros l :
  Forall (fun x => x = Num 0%Q) l -> sum_skipna l = 0%Q.
Proof.
  unfold sum_skipna. induction 1 as [|x t -> _ IH]; [reflexivity|exact IH].
Qed.

Lemma running_total_zeros {A : Type} (l : list A) g :
  (1 <= g <= List.length l)%nat ->
  running_total (map (fun _ => Num 0%Q) l) g = Num 0%Q.
Proof.
  intros Hg. unfold running_total.
  destruct (nth_error (map (fun _ => Num 0%Q) l) (g - 1)) as [x|] eqn:E.
  - assert (x = Num 0%Q) as ->.
    { apply nth_error_In, in_map_iff in E as (_ & <- & _). reflexivity. }
    f_equal. apply sum_skipna_zeros. clear. revert g.
    induction l as [|a t IH]; intros [|g]; simpl; constructor; auto.
  - apply nth_error_None in E. rewrite length_map in E. lia.
Qed.

Lemma dist_choice_unknown m t :
  in_list m (METRIC_OPTIONS distribution) = false -> dist_choice m t = None.
Proof.
  unfold in_list, METRIC_OPTIONS. cbn [existsb]. intros H. split_orb H.
  unfold dist_choice.
  repeat match goal with E : (m =? _)%string = false |- _ => rewrite E; clear E end.
  reflexivity.
Qed.

(** C8, as amended.  The series branch checks no metric id: for every id
    and every mode the frame of a normalized sequence is computed without
    error.  For an id that the dispatch does not know, the per-game scalar
    is 0 in every game and the plotted series is zero throughout.  In
    distribution mode an id outside the enumeration gives a summary without
    labels, and reading them raises KeyError. *)
Theorem unknown_metric_behaviour
    (log : list Raw.game) (df : list Row) (m name label : string) (i : nat) :
  normalize log = Ok df -> (i < 3)%nat ->
  (forall mode_key, exists F, series mode_key m df name i label = Ok F)
  /\ (in_list m SERIES_METRICS = false ->
        forall mode_key, exists F,
          series mode_key m df name i label = Ok F
          /\ stat_val F = map (fun _ => Num 0%Q) df
          /\ forall g, (1 <= g <= List.length df)%nat ->
               exists q, nth_error (y_final F) (g - 1) = Some (Num q)
                         /\ (q == 0)%Q)
  /\ (in_list m (METRIC_OPTIONS distribution) = false ->
        forall get p,
          get (id p) (selected_season p) = Some {| gameLog := Some log |} ->
          launch_analysis distribution m get [p] = Raise (KeyError "labels")).
Proof.
  intros Hnorm Hi. pose proof (normalize_numbered log df Hnorm) as Hn.
  split; [|split].
  - intros mode_key.
    destruct (series_defined mode_key m df name i label Hn Hi) as (F & HF & _).
    eauto.
  - intros Hm mode_key.
    destruct (series_defined mode_key m df name i label Hn Hi)
      as (F & HF & _ & Hsv & _ & _ & _ & _ & _ & _ & Hy & _).
    assert (Hz : map (stat_value m) df = map (fun _ => Num 0%Q) df).
    { apply map_ext. intros row. now apply stat_value_unknown. }
    exists F. split; [exact HF|]. split; [now rewrite Hsv|].
    intros g Hg. rewrite (Hy g Hg). unfold plotted_at.
    rewrite (plotted_unknown _ _ _ _ _ _ _ _ Hm), Hz,
      (running_total_zeros df g Hg).
    destruct (mode_eqb mode_key projection); simpl.
    + eexists. split; [reflexivity|]. unfold Qeq. simpl. reflexivity.
    + eexists. split; [reflexivity|]. reflexivity.
  - intros Hm get p Hget. unfold launch_analysis, process_players.
    unfold process_selection. rewrite Hget, Hnorm. cbn.
    rewrite (dist_choice_unknown m _ Hm). reflexivity.
Qed.

Lemma unknown_metric_behaviour_witness :
  exists F,
    series projection "bogus" Sample.df "Player" 0 "23-24" = Ok F
    /\ stat_val F = map (fun _ => Num 0%Q) Sample.df
    /\ exists q, nth_error (y_final F) 4 = Some (Num q) /\ (q == 0)%Q.
Proof.
  destruct (unknown_metric_behaviour Sample.season Sample.df
              "bogus" "Player" "23-24" 0 eq_refl ltac:(lia)) as (_ & H & _).
  destruct (H eq_refl projection) as (F & HF & Hsv & Hy).
  exists F. split; [exact HF|]. split; [exact Hsv|].
  apply (Hy 5%nat). simpl. lia.
Defined.

(** C8 as stated fails: in cumulative mode an id of no enumeration is not
    rejected; the run returns a figure whose series is zero. *)
Lemma unknown_metric_not_rejected :
  exists F,
    in_list "bogus" (METRIC_OPTIONS cumulative) = false
    /\ launch_analysis cumulative "bogus" (Faulty.serving Sample.pair)
         [Faulty.player] = Ok (Figure [F])
    /\ y_final F = [Num 0%Q; Num 0%Q].
Proof. eexists. split; [reflexivity|]. split; reflexivity. Qed.

(** An id of another mode is not rejected either: [toi] in cumulative mode
    plots the average minutes per game. *)
Example foreign_metric_not_rejected :
  exists F,
    in_list "toi" (METRIC_OPTIONS cumulative) = false
    /\ launch_analysis cumulative "toi" (Faulty.serving Sample.pair)
         [Faulty.player] = Ok (Figure [F])
    /\ map (fun y => match y with Num q => Some (Qred q) | NaN => None end) (y_final F)
       = [Some (25 # 2); Some (45 # 4)].
Proof. eexists. split; [reflexivity|]. split; reflexivity. Qed.

(* ------------------------------------------------------------------ *)
(** ** The selection list *)

(** [add_player] appends at most one entry and touches no other. *)
Lemma add_player_extends players player_data get now :
  fst (add_player players player_data get now) = players
  \/ exists p,
       fst (add_player players player_data get now) = players ++ [p]
       /\ snd (add_player players player_data get now) = Ok None.
Proof.
  unfold add_player.
  destruct (3 <=? List.length players)%nat; [now left|].
  destruct (item "playerId" (playerId player_data)) as [pid|e]; [|now left].
  destruct (negb (details_truthy (get pid))); [now left|].
  destruct (get pid) as [d|]; [|now left].
  destruct (seasons_of d) as [[|s0 l]|e]; try (now left).
  right. eexists. split; reflexivity.
Qed.

(** C10.  When the list already holds three selections, or when the fetch
    of the player's details gives nothing, [add_player] leaves the selection
    list as it was and only shows a notice; in every case the entries that
    were in the list stay as they were, and an entry is appended only by a
    call that ends without notice or exception. *)
Theorem add_player_atomic_on_error
    (players : list Player) (player_data : SearchHit)
    (get_player_details : Z -> option Details) (now : Q) :
  ((3 <= List.length players)%nat ->
     add_player players player_data get_player_details now
     = (players, Ok (Some (warning "Maximum 3 players allowed."))))
  /\ ((List.length players < 3)%nat ->
      forall pid, playerId player_data = Some pid ->
        details_truthy (get_player_details pid) = false ->
        add_player players player_data get_player_details now
        = (players, Ok (Some (error "Could not fetch player details."))))
  /\ (snd (add_player players player_data get_player_details now) <> Ok None ->
        fst (add_player players player_data get_player_details now) = players)
  /\ (exists new, fst (add_player players player_data get_player_details now)
                  = players ++ new /\ (List.length new <= 1)%nat).
Proof.
  split; [|split; [|split]].
  - intros H. unfold add_player.
    now rewrite (proj2 (Nat.leb_le _ _) H).
  - intros H pid Hpid Hd. unfold add_player.
    rewrite (proj2 (Nat.leb_gt _ _) H), Hpid. cbn [item]. now rewrite Hd.
  - intros H.
    destruct (add_player_extends players player_data get_player_details now)
      as [E|(p & _ & E)]; [exact E|contradiction].
  - destruct (add_player_extends players player_data get_player_details now)
      as [E|(p & E & _)].
    + exists []. rewrite app_nil_r. split; [exact E|simpl; lia].
    + exists [p]. split; [exact E|simpl; lia].
Qed.

Lemma add_player_atomic_on_error_witness :
  add_player [Faulty.player; Faulty.player; Faulty.player]
    {| playerId := Some 8478402; hit_name := Some "Connor"%string;
       teamAbbrev := None |}
    (fun _ => None) 0
  = ([Faulty.player; Faulty.player; Faulty.player],
     Ok (Some (warning "Maximum 3 players allowed.")))
  /\ add_player [Faulty.player]
       {| playerId := Some 8478402; hit_name := Some "Connor"%string;
          teamAbbrev := None |}
       (fun _ => None) 0
     = ([Faulty.player], Ok (Some (error "Could not fetch player details."))).
Proof.
  split.
  - apply (proj1 (add_player_atomic_on_error
                    [Faulty.player; Faulty.player; Faulty.player]
                    _ (fun _ => None) 0)).
    simpl. lia.
  - apply (proj1 (proj2 (add_player_atomic_on_error [Faulty.player]
                           _ (fun _ => None) 0))) with (pid := 8478402).
    + simpl. lia.
    + reflexivity.
    + reflexivity.
Defined.

(** A successful call: the seasons of the NHL regular season, latest
    first, without repetition. *)
Example add_player_appends :
  add_player [Faulty.player]
    {| playerId := Some 8478402; hit_name := Some "Connor"%string;
       teamAbbrev := None |}
    (fun _ => Some {| seasonTotals := Some
                        [ {| season := Some 20212022; leagueAbbrev := Some "NHL"%string;
                             gameTypeId := Some 2 |};
                          {| season := Some 20212022; leagueAbbrev := Some "NHL"%string;
                             gameTypeId := Some 3 |};
                          {| season := Some 20222023; leagueAbbrev := Some "NHL"%string;
                             gameTypeId := Some 2 |};
                          {| season := Some 20222023; leagueAbbrev := Some "NHL"%string;
                             gameTypeId := Some 2 |};
                          {| season := Some 20142015; leagueAbbrev := Some "OHL"%string;
                             gameTypeId := None |} ];
                      seasonId := None; other_keys := true |})
    0
  = ([Faulty.player;
      {| id := 8478402; name := "Connor"; team := "NHL";
         selected_season := 20222023;
         available_seasons := [20222023; 20212022];
         color_idx := 1; instance_id := 0 |}],
     Ok None).
Proof. reflexivity. Qed.

(* ================================================================== *)
(** * Further properties of the code *)

(* ------------------------------------------------------------------ *)
(** ** The seasons offered for a player *)

Lemma is_nhl_regular_spec s : is_nhl_regular s = true <-> nhl_regular s.
Proof.
  unfold is_nhl_regular, nhl_regular.
  destruct (leagueAbbrev s) as [l|], (gameTypeId s) as [g|]; split;
    try (intros H; discriminate H); try (intros [H1 H2]; discriminate).
  - intros H. apply andb_true_iff in H as [H1 H2].
    apply String.eqb_eq in H1. apply Z.eqb_eq in H2. now subst.
  - intros [H1 H2]. injection H1 as ->. injection H2 as ->. reflexivity.
Qed.

Lemma nhl_seasons_filter l r :
  nhl_seasons l = Ok r -> r = filter is_nhl_regular l.
Proof.
  revert r. induction l as [|s t IH]; intros r H; simpl in H.
  - now injection H as <-.
  - cbn [filter]. unfold is_nhl_regular.
    destruct (leagueAbbrev s) as [lg|]; simpl in H; [|discriminate].
    destruct (lg =? "NHL")%string.
    + destruct (gameTypeId s) as [g|]; simpl in H; [|discriminate].
      destruct (nhl_seasons t) as [rest|]; simpl in H; [|discriminate].
      injection H as <-. cbn [andb]. now rewrite (IH rest eq_refl).
    + simpl in H. destruct (nhl_seasons t) as [rest|]; simpl in H; [|discriminate].
      injection H as <-. destruct (gameTypeId s); cbn [andb];
        now rewrite (IH rest eq_refl).
Qed.

Lemma dedup_seasons_spec l : forall seen acc r,
  (forall y, In y seen <-> In y acc) -> NoDup acc ->
  dedup_seasons seen acc l = Ok r ->
  NoDup r
  /\ forall y, In y r <-> In y acc \/ exists s, In s l /\ season s = Some y.
Proof.
  induction l as [|s t IH]; intros seen acc r Hseen Hnd H; simpl in H.
  - injection H as <-. split; [assumption|]. intros y. split; [auto|].
    intros [Hy|(s & [] & _)]. exact Hy.
  - destruct (season s) as [y0|] eqn:Es; simpl in H; [|discriminate].
    destruct (existsb (Z.eqb y0) seen) eqn:Ex.
    + apply existsb_exists in Ex as (z & Hz & Ez). apply Z.eqb_eq in Ez. subst z.
      destruct (IH seen acc r Hseen Hnd H) as (Hr & Hin).
      split; [assumption|]. intros y. rewrite Hin. split.
      * intros [Hy|(s' & Hs' & E)]; [now left|]. right. exists s'. split; [now right|assumption].
      * intros [Hy|(s' & [<-|Hs'] & E)]; [now left| |].
        -- rewrite Es in E. injection E as <-. left. now apply Hseen.
        -- right. eauto.
    + assert (Hnot : ~ In y0 acc).
      { intros Hy. apply Hseen in Hy.
        assert (existsb (Z.eqb y0) seen = true)
          by (apply existsb_exists; exists y0; split; [assumption|apply Z.eqb_refl]).
        congruence. }
      destruct (IH (y0 :: seen) (acc ++ [y0]) r) as (Hr & Hin); try assumption.
      * intros y. simpl. rewrite in_app_iff, Hseen. simpl. tauto.
      * apply NoDup_app; [assumption|repeat constructor; intros []|].
        intros x Hx [<-|[]]. contradiction.
      * split; [assumption|]. intros y. rewrite Hin, in_app_iff. simpl. split.
        -- intros [[Hy|[<-|[]]]|(s' & Hs' & E)]; [now left| |].
           ++ right. exists s. split; [now left|assumption].
           ++ right. exists s'. split; [now right|assumption].
        -- intros [Hy|(s' & [<-|Hs'] & E)]; [now left; left| |].
           ++ rewrite Es in E. injection E as <-. left. right. now left.
           ++ right. eauto.
Qed.

Lemma insert_desc_perm y l : Permutation (insert_desc y l) (y :: l).
Proof.
  induction l as [|h t IH]; simpl; [reflexivity|].
  destruct (h <=? y); [reflexivity|]. rewrite IH. apply perm_swap.
Qed.

Lemma sort_desc_perm l : Permutation (sort_desc l) l.
Proof.
  induction l as [|y t IH]; simpl; [reflexivity|].
  rewrite insert_desc_perm. now constructor.
Qed.

Lemma insert_desc_sorted y l :
  Sorted Z.ge l -> Sorted Z.ge (insert_desc y l).
Proof.
  induction l as [|h t IH]; simpl; intros Hs; [repeat constructor|].
  destruct (h <=? y) eqn:E.
  - apply Z.leb_le in E. constructor; [assumption|]. constructor. lia.
  - apply Z.leb_gt in E. inversion Hs as [|? ? Ht Hh]; subst.
    constructor; [now apply IH|].
    destruct t as [|h' t']; simpl; [constructor; lia|].
    destruct (h' <=? y); constructor; [lia|]. now inversion Hh.
Qed.

Lemma sort_desc_sorted l : StronglySorted Z.ge (sort_desc l).
Proof.
  apply Sorted_StronglySorted; [intros a b c; lia|].
  induction l as [|y t IH]; simpl; [constructor|].
  now apply insert_desc_sorted.
Qed.

Lemma strictly_descending l :
  StronglySorted Z.ge l -> NoDup l -> StronglySorted Z.gt l.
Proof.
  induction 1 as [|a t Ht IH Ha]; intros Hnd; constructor.
  - apply IH. now inversion Hnd.
  - inversion Hnd as [|? ? Hnot _]; subst.
    rewrite Forall_forall in *. intros x Hx. specialize (Ha x Hx).
    assert (a <> x) by (intros ->; contradiction). lia.
Qed.

(** The seasons [add_player] offers for a landing document that raises no
    KeyError. *)
Lemma seasons_of_spec d l :
  seasons_of d = Ok l ->
  l <> []
  /\ StronglySorted Z.gt l
  /\ ((forall y, In y l <->
         exists t s, seasonTotals d = Some t /\ In s t /\ nhl_regular s
                     /\ season s = Some y)
      \/ ((forall t s, seasonTotals d = Some t -> In s t -> ~ nhl_regular s)
          /\ l = [get_or (seasonId d) 20232024])).
Proof.
  unfold seasons_of. destruct (seasonTotals d) as [t|] eqn:Et.
  - destruct (nhl_seasons t) as [nhl|] eqn:En; simpl; [|discriminate].
    destruct (dedup_seasons [] [] nhl) as [ss|] eqn:Ed; simpl; [|discriminate].
    apply nhl_seasons_filter in En.
    destruct (dedup_seasons_spec nhl [] [] ss) as (Hnd & Hin);
      [tauto|constructor|assumption|].
    intros H. injection H as <-.
    assert (Hmem : forall y, In y (sort_desc ss) <->
              exists t0 s, Some t = Some t0 /\ In s t0 /\ nhl_regular s
                           /\ season s = Some y).
    { intros y. split.
      - intros Hy. apply (Permutation_in _ (sort_desc_perm ss)) in Hy.
        apply Hin in Hy as [[]|(s & Hs & E)]. subst nhl.
        apply filter_In in Hs as [Hs Hb]. apply is_nhl_regular_spec in Hb.
        exists t, s. auto.
      - intros (t0 & s & Ht0 & Hs & Hn & E). injection Ht0 as <-.
        apply (Permutation_in _ (Permutation_sym (sort_desc_perm ss))).
        apply Hin. right. exists s. split; [|assumption]. subst nhl.
        apply filter_In. split; [assumption|now apply is_nhl_regular_spec]. }
    destruct (sort_desc ss) as [|y0 rest] eqn:Es.
    + split; [discriminate|]. split; [repeat constructor|]. right. split; [|reflexivity].
      intros t0 s Ht0 Hs Hn. injection Ht0 as <-.
      assert (Hne : In s nhl)
        by (subst nhl; apply filter_In; split;
            [assumption|now apply is_nhl_regular_spec]).
      destruct (season s) as [y|] eqn:Ey.
      * assert (In y []) as []. apply Hmem. exists t, s. auto.
      * subst nhl. clear - Ed Hne Ey.
        assert (forall l seen acc r, In s l -> dedup_seasons seen acc l = Ok r -> False)
          as Habs.
        { induction l as [|a t' IH]; intros seen acc r Hin H; [contradiction|].
          simpl in H. destruct Hin as [->|Hin].
          - rewrite Ey in H. discriminate.
          - destruct (season a); simpl in H; [|discriminate].
            destruct (existsb _ _); eapply IH; eauto. }
        eapply Habs; eauto.
    + rewrite <- Es. split; [rewrite Es; discriminate|]. split.
      * apply strictly_descending; [apply sort_desc_sorted|].
        eapply Permutation_NoDup; [apply Permutation_sym, sort_desc_perm|assumption].
      * left. rewrite Es. exact Hmem.
  - simpl. intros H. injection H as <-. split; [discriminate|].
    split; [repeat constructor|]. right. split; [discriminate|reflexivity].
Qed.

(* ------------------------------------------------------------------ *)
(** ** [add_player] *)

Lemma seasons_of_key_errors d e :
  seasons_of d = Raise e ->
  In e [KeyError "leagueAbbrev"; KeyError "gameTypeId"; KeyError "season"].
Proof.
  unfold seasons_of. destruct (seasonTotals d) as [t|]; [|discriminate].
  destruct (nhl_seasons t) as [nhl|e1] eqn:En; simpl.
  - destruct (dedup_seasons [] [] nhl) as [ss|e2] eqn:Ed; simpl; [discriminate|].
    intros H. injection H as <-. clear En.
    revert Ed. generalize (@nil Z) at 1. generalize (@nil Z).
    induction nhl as [|s r IH]; intros acc seen H; simpl in H; [discriminate|].
    destruct (season s); simpl in H.
    + destruct (existsb _ _); eapply IH; eauto.
    + injection H as <-. simpl. auto.
  - intros H. injection H as <-. clear - En.
    induction t as [|s r IH]; simpl in En; [discriminate|].
    destruct (leagueAbbrev s) as [lg|]; simpl in En;
      [|injection En as <-; simpl; auto].
    destruct (lg =? "NHL")%string.
    + destruct (gameTypeId s); simpl in En; [|injection En as <-; simpl; auto].
      destruct (nhl_seasons r); simpl in En; [discriminate|].
      injection En as <-. now apply IH.
    + simpl in En. destruct (nhl_seasons r); simpl in En; [discriminate|].
      injection En as <-. now apply IH.
Qed.

(** The three ways a call of [add_player] ends. *)
Lemma add_player_cases players player_data get now :
  (exists n, add_player players player_data get now = (players, Ok (Some n)))
  \/ (exists e, add_player players player_data get now = (players, Raise e)
        /\ In e [KeyError "playerId"; KeyError "leagueAbbrev";
                 KeyError "gameTypeId"; KeyError "season"])
  \/ (exists pid d s0 rest,
        (List.length players < 3)%nat
        /\ playerId player_data = Some pid
        /\ get pid = Some d
        /\ seasons_of d = Ok (s0 :: rest)
        /\ add_player players player_data get now
           = (players ++ [new_entry players player_data pid (s0 :: rest) s0 now],
              Ok None)).
Proof.
  unfold add_player.
  destruct (3 <=? List.length players)%nat eqn:E3; [left; eauto|].
  apply Nat.leb_gt in E3.
  destruct (playerId player_data) as [pid|]; simpl;
    [|right; left; eexists; split; [reflexivity|simpl; auto]].
  destruct (details_truthy (get pid)) eqn:Et; simpl; [|left; eauto].
  destruct (get pid) as [d|] eqn:Eg; [|left; eauto].
  destruct (seasons_of d) as [[|s0 rest]|e] eqn:Es.
  - apply seasons_of_spec in Es as (Hne & _). contradiction.
  - right. right. exists pid, d, s0, rest. auto.
  - right. left. exists e. split; [reflexivity|].
    apply seasons_of_key_errors in Es. simpl in *. tauto.
Qed.

(** X1.  A call of [add_player] that ends without notice and without
    exception appends one entry: it carries the player id of the hit, the
    position it takes as colour index and the time of the call; its seasons
    are in strictly descending order (so none twice), its selected season is
    the first and latest of them, and the seasons are those of the NHL
    regular-season rows of the landing document, or the fallback season
    when the document has no such row. *)
Theorem add_player_new_entry
    (players : list Player) (player_data : SearchHit)
    (get : Z -> option Details) (now : Q) :
  snd (add_player players player_data get now) = Ok None ->
  exists pid d p,
    playerId player_data = Some pid
    /\ get pid = Some d
    /\ (List.length players < 3)%nat
    /\ fst (add_player players player_data get now) = players ++ [p]
    /\ id p = pid
    /\ color_idx p = List.length players
    /\ instance_id p = now
    /\ StronglySorted Z.gt (available_seasons p)
    /\ nth_error (available_seasons p) 0 = Some (selected_season p)
    /\ (forall y, In y (available_seasons p) -> y <= selected_season p)
    /\ ((forall y, In y (available_seasons p) <->
           exists t s, seasonTotals d = Some t /\ In s t /\ nhl_regular s
                       /\ season s = Some y)
        \/ ((forall t s, seasonTotals d = Some t -> In s t -> ~ nhl_regular s)
            /\ available_seasons p = [get_or (seasonId d) 20232024])).
Proof.
  intros H.
  destruct (add_player_cases players player_data get now)
    as [(n & E)|[(e & E & _)|(pid & d & s0 & rest & Hlen & Hpid & Hd & Hs & E)]];
    rewrite E in H; simpl in H; try discriminate.
  exists pid, d, (new_entry players player_data pid (s0 :: rest) s0 now).
  rewrite E. simpl.
  destruct (seasons_of_spec d _ Hs) as (_ & Hsorted & Hmem).
  repeat (split; [first [assumption | reflexivity]|]).
  split; [|exact Hmem].
  intros y [<-|Hy]; [lia|].
  inversion Hsorted as [|? ? _ Hall]; subst.
  rewrite Forall_forall in Hall. specialize (Hall y Hy). lia.
Qed.

Lemma add_player_new_entry_witness :
  exists p,
    fst (add_player [Faulty.player]
           {| playerId := Some 8478402; hit_name := None; teamAbbrev := None |}
           (fun _ => Some {| seasonTotals := Some
                               [ {| season := Some 20212022;
                                    leagueAbbrev := Some "NHL"%string;
                                    gameTypeId := Some 2 |};
                                 {| season := Some 20222023;
                                    leagueAbbrev := Some "NHL"%string;
                                    gameTypeId := Some 2 |} ];
                             seasonId := None; other_keys := false |})
           0)
    = [Faulty.player] ++ [p]
    /\ color_idx p = 1%nat
    /\ StronglySorted Z.gt (available_seasons p).
Proof.
  destruct (add_player_new_entry [Faulty.player]
              {| playerId := Some 8478402; hit_name := None; teamAbbrev := None |}
              (fun _ => Some {| seasonTotals := Some
                                  [ {| season := Some 20212022;
                                       leagueAbbrev := Some "NHL"%string;
                                       gameTypeId := Some 2 |};
                                    {| season := Some 20222023;
                                       leagueAbbrev := Some "NHL"%string;
                                       gameTypeId := Some 2 |} ];
                                seasonId := None; other_keys := false |})
              0 eq_refl)
    as (pid & d & p & _ & _ & _ & Hfst & _ & Hc & _ & Hs & _).
  exists p. split; [exact Hfst|]. split; [exact Hc|exact Hs].
Defined.

(** X2.  [add_player] raises nothing but a KeyError for one of the four
    keys it reads without a default, and then leaves the list as it was;
    when the hit has a player id and every season row of the document has
    its league, game type and season, it raises nothing at all. *)
Theorem add_player_raises_only_key_errors
    (players : list Player) (player_data : SearchHit)
    (get : Z -> option Details) (now : Q) :
  (forall e, snd (add_player players player_data get now) = Raise e ->
     In e [KeyError "playerId"; KeyError "leagueAbbrev";
           KeyError "gameTypeId"; KeyError "season"]
     /\ fst (add_player players player_data get now) = players)
  /\ (playerId player_data <> None ->
      (forall pid d t s, get pid = Some d -> seasonTotals d = Some t -> In s t ->
         leagueAbbrev s <> None /\ gameTypeId s <> None /\ season s <> None) ->
      exists n, snd (add_player players player_data get now) = Ok n).
Proof.
  split.
  - intros e H.
    destruct (add_player_cases players player_data get now)
      as [(n & E)|[(e' & E & He)|(pid & d & s0 & rest & _ & _ & _ & _ & E)]];
      rewrite E in H |- *; simpl in H; try discriminate.
    injection H as <-. auto.
  - intros Hpid Hkeys.
    destruct (add_player_cases players player_data get now)
      as [(n & E)|[(e & E & He)|(pid & d & s0 & rest & _ & _ & _ & _ & E)]];
      rewrite E; simpl; eauto.
    exfalso. revert E. unfold add_player.
    destruct (3 <=? List.length players)%nat; [discriminate|].
    destruct (playerId player_data) as [pid|]; [|contradiction]. simpl.
    destruct (details_truthy (get pid)); simpl; [|discriminate].
    destruct (get pid) as [d|] eqn:Eg; [|discriminate].
    destruct (seasons_of d) as [[|s0 rest]|e'] eqn:Es; try discriminate;
      [apply seasons_of_spec in Es as (Hne & _); contradiction|].
    intros _. clear He. revert Es. unfold seasons_of.
    destruct (seasonTotals d) as [t|] eqn:Et; [|discriminate].
    specialize (Hkeys pid d t). 
    assert (Hn : exists nhl, nhl_seasons t = Ok nhl /\ incl nhl t).
    { assert (Hk : forall s, In s t -> leagueAbbrev s <> None /\ gameTypeId s <> None)
        by (intros s Hs; destruct (Hkeys s Eg Et Hs) as (? & ? & ?); auto).
      clear - Hk. induction t as [|s r IH]; [exists []; split; [reflexivity|intros x []]|].
      destruct (Hk s (or_introl eq_refl)) as [H1 H2].
      destruct IH as (nhl & En & Hi); [intros x Hx; apply Hk; now right|].
      simpl. destruct (leagueAbbrev s) as [lg|]; [|contradiction].
      destruct (gameTypeId s) as [g|]; [|contradiction]. simpl.
      rewrite En. destruct (lg =? "NHL")%string; simpl.
      - destruct (g =? 2); eexists; (split; [reflexivity|]).
        + intros x [<-|Hx]; [now left|right; now apply Hi].
        + intros x Hx. right. now apply Hi.
      - eexists. split; [reflexivity|]. intros x Hx. right. now apply Hi. }
    destruct Hn as (nhl & -> & Hincl). simpl.
    assert (Hd : forall l seen acc, incl l t -> exists r, dedup_seasons seen acc l = Ok r).
    { induction l as [|s r IH]; intros seen acc Hi; simpl; [eauto|].
      destruct (Hkeys s Eg Et (Hi s (or_introl eq_refl))) as (_ & _ & H3).
      destruct (season s) as [y|]; [|contradiction]. simpl.
      destruct (existsb _ _); apply IH; intros x Hx; apply Hi; now right. }
    destruct (Hd nhl [] [] Hincl) as (r & ->). simpl. discriminate.
Qed.

Lemma add_player_raises_only_key_errors_witness :
  In (KeyError "season")
     [KeyError "playerId"; KeyError "leagueAbbrev";
      KeyError "gameTypeId"; KeyError "season"]
  /\ fst (add_player [] {| playerId := Some 1; hit_name := None; teamAbbrev := None |}
            (fun _ => Some {| seasonTotals := Some
                                [ {| season := None;
                                     leagueAbbrev := Some "NHL"%string;
                                     gameTypeId := Some 2 |} ];
                              seasonId := None; other_keys := false |})
            0) = [].
Proof.
  apply (proj1 (add_player_raises_only_key_errors []
                  {| playerId := Some 1; hit_name := None; teamAbbrev := None |}
                  (fun _ => Some {| seasonTotals := Some
                                      [ {| season := None;
                                           leagueAbbrev := Some "NHL"%string;
                                           gameTypeId := Some 2 |} ];
                                    seasonId := None; other_keys := false |})
                  0) (KeyError "season")).
  reflexivity.
Defined.

(* ------------------------------------------------------------------ *)
(** ** The invariant of the selection list *)

Lemma nth_error_snoc {A : Type} (l : list A) (x y : A) (k : nat) :
  nth_error (l ++ [x]) k = Some y ->
  ((k < List.length l)%nat /\ nth_error l k = Some y)
  \/ (k = List.length l /\ y = x).
Proof.
  intros H. destruct (Nat.lt_ge_cases k (List.length l)) as [Hk|Hk].
  - left. split; [assumption|]. now rewrite nth_error_app1 in H.
  - right. rewrite nth_error_app2 in H by assumption.
    destruct (k - List.length l)%nat as [|j] eqn:E; simpl in H.
    + injection H as <-. split; [lia|reflexivity].
    + destruct j; discriminate.
Qed.

(** X3.  [add_player] keeps the selection list well formed: at most three
    entries, each coloured by its position, each with its selected season
    among its available seasons. *)
Theorem add_player_keeps_well_formed
    (players : list Player) (player_data : SearchHit)
    (get : Z -> option Details) (now : Q) :
  well_formed players ->
  well_formed (fst (add_player players player_data get now)).
Proof.
  intros (Hlen & Hcol & Hsel).
  destruct (add_player_cases players player_data get now)
    as [(n & E)|[(e & E & _)|(pid & d & s0 & rest & Hlt & _ & _ & _ & E)]];
    rewrite E; simpl; try (now repeat split).
  split; [rewrite length_app; simpl; lia|]. split.
  - intros k p Hk. apply nth_error_snoc in Hk as [[_ Hk]|[-> ->]];
      [now apply Hcol|reflexivity].
  - intros p Hp. apply in_app_iff in Hp as [Hp|[<-|[]]]; [now apply Hsel|].
    simpl. now left.
Qed.

Lemma add_player_keeps_well_formed_witness :
  well_formed
    (fst (add_player [] {| playerId := Some 1; hit_name := None; teamAbbrev := None |}
            (fun _ => Some {| seasonTotals := None; seasonId := Some 20242025;
                              other_keys := false |}) 0)).
Proof.
  apply add_player_keeps_well_formed.
  split; [simpl; lia|]. split.
  - intros k p H. destruct k; discriminate.
  - intros p [].
Defined.

(* ------------------------------------------------------------------ *)
(** ** [remove_player] *)

Lemma reindex_from_length l : forall i,
  List.length (reindex_from i l) = List.length l.
Proof. induction l as [|p t IH]; intros i; simpl; [reflexivity|now rewrite IH]. Qed.

Lemma reindex_from_nth_error l : forall i j,
  nth_error (reindex_from i l) j
  = option_map (set_color_idx (i + j)) (nth_error l j).
Proof.
  induction l as [|p t IH]; intros i j; destruct j; simpl; try reflexivity.
  - now rewrite Nat.add_0_r.
  - rewrite IH. now replace (S i + j)%nat with (i + S j)%nat by lia.
Qed.

Lemma pop_at_length {A : Type} (l : list A) : forall k,
  (k < List.length l)%nat -> List.length (pop_at k l) = (List.length l - 1)%nat.
Proof.
  induction l as [|h t IH]; intros k Hk; simpl in Hk; [lia|].
  destruct k as [|k]; simpl; [lia|]. rewrite IH by lia. lia.
Qed.

Lemma pop_at_nth_error {A : Type} (l : list A) : forall k j,
  nth_error (pop_at k l) j = nth_error l (if (j <? k)%nat then j else S j).
Proof.
  induction l as [|h t IH]; intros k j.
  - assert (Hnil : forall i, nth_error (@nil A) i = None)
      by (intros [|i]; reflexivity).
    destruct k; simpl; now rewrite !Hnil.
  - destruct k as [|k]; [reflexivity|]. destruct j as [|j]; [reflexivity|].
    simpl. rewrite IH.
    change (S j <? S k)%nat with (j <? k)%nat. now destruct (j <? k)%nat.
Qed.


Lemma set_color_idx_same p : set_color_idx (color_idx p) p = p.
Proof. now destruct p. Qed.

Lemma reindex_from_indexed l : forall i,
  (forall k p, nth_error l k = Some p -> color_idx p = (i + k)%nat) ->
  reindex_from i l = l.
Proof.
  induction l as [|p t IH]; intros i H; simpl; [reflexivity|].
  f_equal.
  - rewrite <- (set_color_idx_same p) at 2. f_equal.
    rewrite (H 0%nat p eq_refl). lia.
  - apply IH. intros k q Hq. rewrite (H (S k) q Hq). lia.
Qed.

(** X4.  [remove_player]: an index outside [-n, n) raises IndexError and
    leaves the list as it was.  Inside, the entry at that position (counted
    from the end when negative) is removed, the others keep their order and
    their fields, and every entry is coloured by its new position. *)
Theorem remove_player_spec (players : list Player) (idx : Z) :
  let n := List.length players in
  (idx < - Z.of_nat n \/ Z.of_nat n <= idx ->
     remove_player players idx = (players, Raise IndexError))
  /\ (- Z.of_nat n <= idx < Z.of_nat n ->
      let k := popped n idx in
      exists rest,
        remove_player players idx = (rest, Ok tt)
        /\ S (List.length rest) = n
        /\ (k < n)%nat
        /\ forall j, (j < List.length rest)%nat ->
             exists q, nth_error players (if (j <? k)%nat then j else S j) = Some q
                       /\ nth_error rest j = Some (set_color_idx j q)).
Proof.
  cbn zeta. unfold remove_player, popped. split.
  - intros H. destruct (idx <? 0) eqn:E.
    + apply Z.ltb_lt in E.
      replace (idx + Z.of_nat (List.length players) <? 0) with true
        by (symmetry; apply Z.ltb_lt; lia).
      reflexivity.
    + apply Z.ltb_ge in E.
      replace (idx <? 0) with false by (symmetry; apply Z.ltb_ge; lia).
      replace (Z.of_nat (List.length players) <=? idx) with true
        by (symmetry; apply Z.leb_le; lia).
      reflexivity.
  - intros H.
    set (k := if idx <? 0 then idx + Z.of_nat (List.length players) else idx).
    assert (Hk : 0 <= k < Z.of_nat (List.length players))
      by (subst k; destruct (idx <? 0) eqn:E;
          [apply Z.ltb_lt in E|apply Z.ltb_ge in E]; lia).
    replace (k <? 0) with false by (symmetry; apply Z.ltb_ge; lia).
    replace (Z.of_nat (List.length players) <=? k) with false
      by (symmetry; apply Z.leb_gt; lia).
    simpl. eexists. split; [reflexivity|].
    assert (Hlt : (Z.to_nat k < List.length players)%nat) by lia.
    rewrite reindex_from_length, (pop_at_length _ _ Hlt).
    split; [lia|]. split; [exact Hlt|].
    intros j Hj. rewrite reindex_from_nth_error, pop_at_nth_error. simpl.
    destruct (nth_error players (if (j <? Z.to_nat k)%nat then j else S j))
      as [q|] eqn:Eq.
    + exists q. split; reflexivity.
    + apply nth_error_None in Eq. destruct (j <? Z.to_nat k)%nat eqn:Ej;
        [apply Nat.ltb_lt in Ej|apply Nat.ltb_ge in Ej]; lia.
Qed.

Lemma remove_player_spec_witness :
  remove_player [Faulty.player] 1 = ([Faulty.player], Raise IndexError)
  /\ exists rest,
       remove_player [Faulty.player; set_color_idx 1 Faulty.player] (-2)
       = (rest, Ok tt)
       /\ S (List.length rest) = 2%nat.
Proof.
  split.
  - apply (proj1 (remove_player_spec [Faulty.player] 1)). simpl. lia.
  - destruct (proj2 (remove_player_spec
                       [Faulty.player; set_color_idx 1 Faulty.player] (-2)))
      as (rest & H & Hl & _); [simpl; lia|].
    exists rest. split; [exact H|exact Hl].
Defined.



Lemma pop_at_last {A : Type} (l : list A) (x : A) :
  pop_at (List.length l) (l ++ [x]) = l.
Proof. induction l as [|h t IH]; simpl; [reflexivity|now rewrite IH]. Qed.

(** X6.  Adding a player and removing the entry just added, by its
    position or as the last, gives back the selection list, when the
    entries of the list were coloured by position. *)
Theorem add_then_remove_restores
    (players : list Player) (player_data : SearchHit)
    (get : Z -> option Details) (now : Q) :
  (forall k p, nth_error players k = Some p -> color_idx p = k) ->
  snd (add_player players player_data get now) = Ok None ->
  remove_player (fst (add_player players player_data get now))
    (Z.of_nat (List.length players)) = (players, Ok tt)
  /\ remove_player (fst (add_player players player_data get now)) (-1)
     = (players, Ok tt).
Proof.
  intros Hcol H.
  destruct (add_player_cases players player_data get now)
    as [(n & E)|[(e & E & _)|(pid & d & s0 & rest & _ & _ & _ & _ & E)]];
    rewrite E in H |- *; simpl in H; try discriminate.
  simpl fst. unfold remove_player. rewrite length_app. simpl List.length.
  assert (Hr : reindex_from 0 players = players)
    by (apply reindex_from_indexed; intros k p Hk; now rewrite (Hcol k p Hk)).
  assert (E0 : (Z.of_nat (List.length players) <? 0) = false)
    by (apply Z.ltb_ge; lia).
  assert (E1 : (Z.of_nat (List.length players + 1)
                <=? Z.of_nat (List.length players)) = false)
    by (apply Z.leb_gt; lia).
  split.
  - cbn zeta. rewrite !E0, E1. cbn [orb].
    rewrite Nat2Z.id, pop_at_last, Hr. reflexivity.
  - cbn zeta. change (-1 <? 0) with true. cbn match.
    replace (-1 + Z.of_nat (List.length players + 1))
      with (Z.of_nat (List.length players)) by lia.
    rewrite !E0, E1. cbn [orb].
    rewrite Nat2Z.id, pop_at_last, Hr. reflexivity.
Qed.

Lemma add_then_remove_restores_witness :
  remove_player
    (fst (add_player [Faulty.player]
            {| playerId := Some 1; hit_name := None; teamAbbrev := None |}
            (fun _ => Some {| seasonTotals := None; seasonId := Some 20242025;
                              other_keys := false |}) 0))
    (-1)
  = ([Faulty.player], Ok tt).
Proof.
  apply (proj2 (add_then_remove_restores [Faulty.player]
                  {| playerId := Some 1; hit_name := None; teamAbbrev := None |}
                  (fun _ => Some {| seasonTotals := None; seasonId := Some 20242025;
                                    other_keys := false |}) 0
                  ltac:(intros [|[|k]] p H; try discriminate;
                        now injection H as <-)
                  eq_refl)).
Defined.

(* ------------------------------------------------------------------ *)
(** ** The season select box *)

Lemma update_at_nth_error {A : Type} (f : A -> A) (l : list A) : forall k j,
  nth_error (update_at k f l) j
  = if (j =? k)%nat then option_map f (nth_error l j) else nth_error l j.
Proof.
  induction l as [|h t IH]; intros k j.
  - assert (Hnil : forall n, nth_error (@nil A) n = None)
      by (intros [|n]; reflexivity).
    destruct k; simpl; rewrite !Hnil; now destruct (_ =? _)%nat.
  - destruct k as [|k']; destruct j as [|j']; simpl; try reflexivity. apply IH.
Qed.

Lemma update_at_length {A : Type} (f : A -> A) (l : list A) : forall k,
  List.length (update_at k f l) = List.length l.
Proof.
  induction l as [|h t IH]; intros k; destruct k; simpl; try reflexivity.
  now rewrite IH.
Qed.

Lemma set_selected_season_same p : set_selected_season (selected_season p) p = p.
Proof. now destruct p. Qed.

Lemma select_season_nth_error players i new_season j :
  nth_error (select_season players i new_season) j
  = if (j =? i)%nat
    then option_map (set_selected_season new_season) (nth_error players j)
    else nth_error players j.
Proof.
  unfold select_season. destruct (nth_error players i) as [p|] eqn:Ep.
  - destruct (new_season =? selected_season p) eqn:E; simpl.
    + apply Z.eqb_eq in E. destruct (Nat.eqb_spec j i) as [->|]; [|reflexivity].
      rewrite Ep. simpl. subst new_season. now rewrite set_selected_season_same.
    + apply update_at_nth_error.
  - destruct (Nat.eqb_spec j i) as [->|]; [|reflexivity]. now rewrite Ep.
Qed.

(** X7.  Choosing a season in the select box of entry [i] sets the selected
    season of that entry and nothing else: the other entries and the other
    fields stay, the list keeps its length, and it stays well formed when
    the chosen season is one of the entry's available seasons. *)
Theorem select_season_spec
    (players : list Player) (i : nat) (p : Player) (new_season : Z) :
  nth_error players i = Some p ->
  nth_error (select_season players i new_season) i
  = Some (set_selected_season new_season p)
  /\ (forall j, j <> i ->
        nth_error (select_season players i new_season) j = nth_error players j)
  /\ List.length (select_season players i new_season) = List.length players
  /\ (well_formed players -> In new_season (available_seasons p) ->
        well_formed (select_season players i new_season)).
Proof.
  intros Hp.
  assert (Hlen : List.length (select_season players i new_season)
                 = List.length players).
  { unfold select_season. rewrite Hp.
    destruct (negb _); [apply update_at_length|reflexivity]. }
  split; [|split; [|split]].
  - rewrite select_season_nth_error, Nat.eqb_refl, Hp. reflexivity.
  - intros j Hj. rewrite select_season_nth_error.
    now destruct (Nat.eqb_spec j i).
  - exact Hlen.
  - intros (Hl & Hcol & Hsel) Hin. split; [now rewrite Hlen|]. split.
    + intros k q Hq. rewrite select_season_nth_error in Hq.
      destruct (Nat.eqb_spec k i) as [E|E]; [subst k|now apply Hcol].
      rewrite Hp in Hq. simpl in Hq. injection Hq as <-. simpl.
      now apply Hcol.
    + intros q Hq. apply In_nth_error in Hq as (k & Hk).
      rewrite select_season_nth_error in Hk.
      destruct (Nat.eqb_spec k i) as [E|E].
      * subst k. rewrite Hp in Hk. simpl in Hk. injection Hk as <-. exact Hin.
      * apply Hsel. eapply nth_error_In; eauto.
Qed.

Lemma select_season_spec_witness :
  nth_error (select_season [Faulty.player] 0 20222023) 0
  = Some (set_selected_season 20222023 Faulty.player).
Proof.
  apply (proj1 (select_season_spec [Faulty.player] 0 Faulty.player 20222023
                  eq_refl)).
Defined.

Lemma py_index_found x l :
  In x l -> exists k, py_index x l = Ok k /\ nth_error l k = Some x
                      /\ forall j, (j < k)%nat -> nth_error l j <> Some x.
Proof.
  induction l as [|h t IH]; intros H; [contradiction|]. simpl.
  destruct (Z.eqb_spec h x) as [->|Hne].
  - exists 0%nat. repeat split. intros j Hj. lia.
  - destruct H as [->|H]; [contradiction|].
    destruct (IH H) as (k & -> & Hk & Hmin). exists (S k). repeat split; [assumption|].
    intros [|j] Hj; simpl; [congruence|]. apply Hmin. lia.
Qed.

(** X8.  For every entry of a well-formed selection list the panel of
    selected players is drawn without exception: the colour of the entry
    exists ([COLORS[p["color_idx"]]] raises no IndexError) and the select
    box finds the selected season among the available ones ([index] raises
    no ValueError), at its first position in that list. *)
Theorem selection_panel_safe (players : list Player) (p : Player) :
  well_formed players -> In p players ->
  (exists c, color_at (color_idx p) = Ok c)
  /\ exists k, season_index p = Ok k
       /\ nth_error (available_seasons p) k = Some (selected_season p)
       /\ forall j, (j < k)%nat ->
            nth_error (available_seasons p) j <> Some (selected_season p).
Proof.
  intros (Hlen & Hcol & Hsel) Hp. split.
  - apply In_nth_error in Hp as (k & Hk). rewrite (Hcol k p Hk).
    assert (k < 3)%nat.
    { assert (k < List.length players)%nat
        by (apply nth_error_Some; rewrite Hk; discriminate).
      lia. }
    destruct k as [|[|[|k]]]; try (eexists; reflexivity). lia.
  - apply py_index_found, Hsel, Hp.
Qed.

Lemma selection_panel_safe_witness :
  exists c, color_at (color_idx Faulty.player) = Ok c.
Proof.
  apply (proj1 (selection_panel_safe [Faulty.player] Faulty.player
                  ltac:(split; [simpl; lia|]; split;
                        [intros [|[|k]] q H; try discriminate;
                         now injection H as <-
                        |intros q [<-|[]]; simpl; now left])
                  ltac:(now left))).
Defined.

(* ------------------------------------------------------------------ *)
(** ** The mode radio and the metric select box *)

(** X9.  Whatever option of the mode radio is chosen, every label the
    metric select box offers is found again by the lookup of line 222, the
    id found is an id of that mode's enumeration that carries this label and
    has a unit, and distinct ids of a mode have distinct labels: the page
    never passes a metric id of another mode to the analysis. *)
Theorem metric_selection_round_trip (view_mode selected_label : string) :
  In view_mode VIEW_MODES ->
  In selected_label (metric_labels (mode_key_of view_mode)) ->
  let mode_key := mode_key_of view_mode in
  map fst (METRIC_TABLE mode_key) = METRIC_OPTIONS mode_key
  /\ NoDup (metric_labels mode_key)
  /\ exists selected_metric_id unit,
       metric_of_label mode_key selected_label = Some selected_metric_id
       /\ In selected_metric_id (METRIC_OPTIONS mode_key)
       /\ In (selected_metric_id, (selected_label, unit)) (METRIC_TABLE mode_key)
       /\ unit_of mode_key selected_metric_id = Ok unit.
Proof.
  intros Hv Hl. cbn zeta.
  assert (Hnd : forall l : list string,
            forallb (fun x => Nat.eqb (count_occ string_dec l x) 1) l = true ->
            NoDup l).
  { intros l H. apply (NoDup_count_occ' string_dec). intros x Hx.
    rewrite forallb_forall in H. now apply Nat.eqb_eq, H. }
  simpl in Hv. destruct Hv as [<-|[<-|[<-|[]]]].
  - change (mode_key_of "Cumulative") with cumulative in *.
    split; [reflexivity|]. split; [apply Hnd; reflexivity|].
    simpl in Hl.
    repeat (destruct Hl as [<-|Hl];
            [do 2 eexists; repeat split; try reflexivity; simpl; tauto|]).
    contradiction.
  - change (mode_key_of "82-Gm Pace") with projection in *.
    split; [reflexivity|]. split; [apply Hnd; reflexivity|].
    simpl in Hl.
    repeat (destruct Hl as [<-|Hl];
            [do 2 eexists; repeat split; try reflexivity; simpl; tauto|]).
    contradiction.
  - change (mode_key_of "Distribution") with distribution in *.
    split; [reflexivity|]. split; [apply Hnd; reflexivity|].
    simpl in Hl.
    repeat (destruct Hl as [<-|Hl];
            [do 2 eexists; repeat split; try reflexivity; simpl; tauto|]).
    contradiction.
Qed.

Lemma metric_selection_round_trip_witness :
  exists selected_metric_id unit,
    metric_of_label (mode_key_of "82-Gm Pace") "Shots Per Game"
    = Some selected_metric_id
    /\ In selected_metric_id (METRIC_OPTIONS (mode_key_of "82-Gm Pace"))
    /\ In (selected_metric_id, ("Shots Per Game"%string, unit))
          (METRIC_TABLE (mode_key_of "82-Gm Pace"))
    /\ unit_of (mode_key_of "82-Gm Pace") selected_metric_id = Ok unit.
Proof.
  apply (proj2 (proj2 (metric_selection_round_trip "82-Gm Pace" "Shots Per Game"
                         ltac:(simpl; tauto) ltac:(simpl; tauto)))).
Defined.

(* ------------------------------------------------------------------ *)
(** ** [format_season] *)

Module DigitFacts.

Ltac each_digit k :=
  destruct k as [|[|[|[|[|[|[|[|[|[|k]]]]]]]]]].

Lemma revapp_digit_cons k d acc :
  Decimal.revapp (digit_cons k d) acc = Decimal.revapp d (digit_cons k acc).
Proof. each_digit k; reflexivity. Qed.

Lemma of_lu_digit_cons k d :
  (k < 10)%nat ->
  DecimalPos.Unsigned.of_lu (digit_cons k d)
  = (N.of_nat k + 10 * DecimalPos.Unsigned.of_lu d)%N.
Proof. intros H. each_digit k; try reflexivity. lia. Qed.

Lemma unorm_digit_cons k d :
  (0 < k)%nat -> Decimal.unorm (digit_cons k d) = digit_cons k d.
Proof. intros H. each_digit k; try reflexivity. lia. Qed.

Lemma string_of_digit_cons k d :
  DecimalString.NilZero.string_of_uint (digit_cons k d)
  = String (digit_char k) (DecimalString.NilEmpty.string_of_uint d).
Proof. each_digit k; reflexivity. Qed.

Lemma string_of_digit_cons_tail k d :
  DecimalString.NilEmpty.string_of_uint (digit_cons k d)
  = String (digit_char k) (DecimalString.NilEmpty.string_of_uint d).
Proof. each_digit k; reflexivity. Qed.

End DigitFacts.

(** X10.  For a season id of eight decimal digits d1 ... d8 (d1 not 0) the
    label is the third and fourth digit, a dash, and the seventh and eighth
    digit. *)
Theorem format_season_eight_digits (d1 d2 d3 d4 d5 d6 d7 d8 : nat) :
  (0 < d1 < 10)%nat -> (d2 < 10)%nat -> (d3 < 10)%nat -> (d4 < 10)%nat ->
  (d5 < 10)%nat -> (d6 < 10)%nat -> (d7 < 10)%nat -> (d8 < 10)%nat ->
  format_season (number_of_digits [d1; d2; d3; d4; d5; d6; d7; d8])
  = string_of_list_ascii
      [digit_char d3; digit_char d4; "-"%char; digit_char d7; digit_char d8].
Proof.
  intros H1 H2 H3 H4 H5 H6 H7 H8.
  set (D := digit_cons d1 (digit_cons d2 (digit_cons d3 (digit_cons d4
            (digit_cons d5 (digit_cons d6 (digit_cons d7 (digit_cons d8
            Decimal.Nil)))))))).
  assert (Hval : Z.of_int (Decimal.Pos D)
                 = number_of_digits [d1; d2; d3; d4; d5; d6; d7; d8]).
  { unfold Z.of_int, Z.of_uint. rewrite DecimalPos.Unsigned.of_uint_alt.
    unfold D, Decimal.rev. rewrite !DigitFacts.revapp_digit_cons.
    cbn [Decimal.revapp]. rewrite !DigitFacts.of_lu_digit_cons by lia.
    cbn [DecimalPos.Unsigned.of_lu]. unfold number_of_digits.
    cbn [fold_left]. lia. }
  unfold format_season, str_of_Z. rewrite <- Hval, DecimalZ.to_of.
  cbn [Decimal.norm]. unfold D.
  rewrite !DigitFacts.unorm_digit_cons by lia.
  cbn [DecimalString.NilZero.string_of_int].
  rewrite !DigitFacts.string_of_digit_cons.
  rewrite !DigitFacts.string_of_digit_cons_tail.
  reflexivity.
Qed.

Lemma format_season_eight_digits_witness :
  format_season (number_of_digits [2; 0; 2; 3; 2; 0; 2; 4]%nat)
  = string_of_list_ascii ["2"; "3"; "-"; "2"; "4"]%char.
Proof.
  apply (format_season_eight_digits 2 0 2 3 2 0 2 4); lia.
Defined.

(* ------------------------------------------------------------------ *)
(** ** [search_player] *)

(** X11.  [search_player] never raises and returns at most ten hits.  A
    query of fewer than three characters gives no hit, whatever the
    service would answer; a longer one gives the first ten hits of the
    answer to one request, and no hit when the request fails. *)
Theorem search_player_bounded
    (get : string -> result (list SearchHit)) (query : string) :
  exists hits,
    search_player get query = Ok hits
    /\ (List.length hits <= 10)%nat
    /\ ((String.length query < 3)%nat -> hits = [])
    /\ ((3 <= String.length query)%nat ->
        match get (SEARCH_URL ++ "?culture=en-us&limit=15&q=" ++ query)%string with
        | Ok data => hits = firstn 10 data
        | Raise _ => hits = []
        end).
Proof.
  unfold search_player.
  destruct (String.length query <? 3)%nat eqn:E.
  - apply Nat.ltb_lt in E. exists []. repeat split; simpl; try lia.
  - apply Nat.ltb_ge in E.
    destruct (get _) as [data|e]; simpl.
    + exists (firstn 10 data). split; [reflexivity|]. split.
      * rewrite length_firstn. lia.
      * split; [lia|reflexivity].
    + exists []. repeat split; simpl; lia.
Qed.

Lemma search_player_bounded_witness :
  exists hits,
    search_player (fun _ => Raise ValueError) "Mac" = Ok hits /\ hits = [].
Proof.
  destruct (search_player_bounded (fun _ => Raise ValueError) "Mac")
    as (hits & H & _ & _ & Hlong).
  exists hits. split; [exact H|]. apply Hlong. simpl. lia.
Defined.

(* ------------------------------------------------------------------ *)
(** ** Normalization: errors, records and order of delivery *)

Lemma normalize_row_of log idx r :
  normalize_row log idx r = Ok (row_of log r (Z.of_nat idx + 1)).
Proof.
  unfold normalize_row, row_of, minutes_of.
  destruct (parse_toi_total (clock_cell (Raw.toi r))) as [t ->].
  destruct (parse_toi_total (clock_or_default Raw.powerPlayToi log r)) as [pp ->].
  destruct (parse_toi_total (clock_or_default Raw.shorthandedToi log r)) as [sh ->].
  reflexivity.
Qed.

Lemma normalize_rows_of log l : forall idx,
  normalize_rows log idx l
  = Ok (map (fun ir => row_of log (snd ir) (Z.of_nat (fst ir) + 1))
            (combine (seq idx (List.length l)) l)).
Proof.
  induction l as [|r t IH]; intros idx; simpl; [reflexivity|].
  now rewrite normalize_row_of, IH.
Qed.



(** X13.  The normalization loses and invents no game: without their game
    numbers, the rows are the records of the log in another order, each with
    its own date, its clocks in minutes ([parse_toi], absent power-play and
    shorthanded clocks as 0) and its own numeric fields (0 for a column no
    record has). *)
Theorem normalize_keeps_records (log : list Raw.game) (df : list Row) :
  normalize log = Ok df ->
  Permutation (map unnumbered df) (map (fun r => row_of log r 0) log).
Proof.
  intros H. apply normalize_inv in H as (_ & _ & H).
  rewrite normalize_rows_of in H. injection H as <-.
  rewrite <- (Permutation_map (fun r => row_of log r 0) (sort_values_perm log)).
  rewrite map_map.
  generalize 0%nat. generalize (sort_values log) as l.
  induction l as [|r t IH]; intros idx; simpl; [constructor|].
  constructor. apply IH.
Qed.

Lemma normalize_keeps_records_witness :
  Permutation (map unnumbered (Sample.frame_of Sample.pair))
              (map (fun r => row_of Sample.pair r 0) Sample.pair).
Proof. apply normalize_keeps_records. reflexivity. Defined.

Section OrderOfDelivery.

Lemma has_column_perm {A : Type} (f : Raw.game -> option A) log log' :
  Permutation log log' -> has_column f log = has_column f log'.
Proof.
  intros H. unfold has_column.
  destruct (existsb _ log) eqn:E, (existsb _ log') eqn:E'; try reflexivity.
  - apply existsb_exists in E as (x & Hx & Hb).
    assert (existsb (fun r => match f r with Some _ => true | None => false end)
              log' = true)
      by (apply existsb_exists; exists x; split;
          [eapply Permutation_in; eauto|assumption]).
    congruence.
  - apply existsb_exists in E' as (x & Hx & Hb).
    assert (existsb (fun r => match f r with Some _ => true | None => false end)
              log = true)
      by (apply existsb_exists; exists x; split;
          [eapply Permutation_in; [apply Permutation_sym|]; eauto|assumption]).
    congruence.
Qed.

Lemma row_of_perm log log' r n :
  Permutation log log' -> row_of log r n = row_of log' r n.
Proof.
  intros H. unfold row_of, clock_or_default, numeric_or_zero.
  now rewrite !(has_column_perm _ log log' H).
Qed.

Lemma date_le_antisym a b : date_le a b -> date_le b a -> a = b.
Proof.
  unfold date_le. destruct a as [x|], b as [y|]; simpl; try discriminate;
    try reflexivity.
  rewrite !Z.leb_le. intros. f_equal. lia.
Qed.

(** Two lists in ascending order of date that hold the same records, no
    two of one date, are the same list. *)
Lemma sorted_by_date_unique (l l' : list Raw.game) :
  StronglySorted date_le (map Raw.gameDate l) ->
  StronglySorted date_le (map Raw.gameDate l') ->
  NoDup (map Raw.gameDate l) ->
  Permutation l l' -> l = l'.
Proof.
  revert l'. induction l as [|a t IH]; intros l' Hs Hs' Hnd Hp.
  - apply Permutation_nil in Hp. now subst.
  - destruct l' as [|a' t']; [apply Permutation_sym, Permutation_nil in Hp; discriminate|].
    simpl in Hs, Hs', Hnd.
    inversion Hs as [|? ? Hst Hall]; subst.
    inversion Hs' as [|? ? Hst' Hall']; subst.
    inversion Hnd as [|? ? Hnot Hndt]; subst.
    rewrite Forall_forall in Hall, Hall'.
    assert (Ha : a = a').
    { assert (Hin : In a' (a :: t))
        by (eapply Permutation_in; [apply Permutation_sym; exact Hp|now left]).
      assert (Hin' : In a (a' :: t'))
        by (eapply Permutation_in; [exact Hp|now left]).
      destruct Hin as [E|Hin]; [exact E|].
      destruct Hin' as [E|Hin']; [now symmetry|].
      exfalso. apply Hnot.
      assert (Raw.gameDate a = Raw.gameDate a') as ->.
      { apply date_le_antisym.
        - apply Hall. now apply in_map.
        - apply Hall'. now apply in_map. }
      now apply in_map. }
    subst a'. f_equal. apply IH; try assumption.
    eapply Permutation_cons_inv; eauto.
Qed.

End OrderOfDelivery.

(** X14.  When no two records of a log have the same date, the
    normalization does not depend on the order in which the provider
    delivers the records. *)
Theorem normalize_order_independent (log log' : list Raw.game) :
  Permutation log log' ->
  distinct_dates log ->
  normalize log = normalize log'.
Proof.
  intros Hp Hnd. unfold normalize.
  rewrite <- !(has_column_perm _ log log' Hp).
  destruct (has_column Raw.gameDate log); simpl; [|reflexivity].
  destruct (has_column Raw.toi log); simpl; [|reflexivity].
  rewrite !normalize_rows_of.
  assert (Hsort : sort_values log = sort_values log').
  { apply sorted_by_date_unique.
    - apply sort_values_strongly.
    - apply sort_values_strongly.
    - eapply Permutation_NoDup; [|exact Hnd].
      apply Permutation_map, Permutation_sym, sort_values_perm.
    - rewrite (sort_values_perm log), Hp. apply Permutation_sym, sort_values_perm. }
  rewrite <- Hsort. f_equal. apply map_ext. intros [k r]. simpl.
  now apply row_of_perm.
Qed.

Lemma normalize_order_independent_witness :
  normalize Sample.pair = normalize (rev Sample.pair).
Proof.
  apply normalize_order_independent.
  - apply Permutation_rev.
  - repeat constructor; simpl; intuition discriminate.
Defined.

(* ------------------------------------------------------------------ *)
(** ** Cumulative series and season totals *)

Lemma inject_Z_plus_eq a b : (inject_Z a + inject_Z b)%Q = inject_Z (a + b).
Proof. unfold Qplus, inject_Z. simpl. f_equal. lia. Qed.

Lemma sum_skipna_of_cells_from l : forall a,
  fold_left (fun acc x => match x with Num q => (acc + q)%Q | NaN => acc end)
    (map of_cell l) (inject_Z a)
  = inject_Z (fold_left (fun acc c => match c with Some z => acc + z | None => acc end)
                l a).
Proof.
  induction l as [|[z|] t IH]; intros a; simpl; [reflexivity| |apply IH].
  rewrite inject_Z_plus_eq. apply IH.
Qed.

Lemma sum_skipna_of_cells l : sum_skipna (map of_cell l) = inject_Z (sum_cells l).
Proof. apply (sum_skipna_of_cells_from l 0). Qed.

Lemma running_total_of_cells l g :
  running_total (map of_cell l) g = partial_sum l g.
Proof.
  unfold running_total, partial_sum. rewrite nth_error_map.
  destruct (nth_error l (g - 1)) as [[z|]|]; simpl; try reflexivity.
  now rewrite <- sum_skipna_of_cells, firstn_map.
Qed.

Lemma sum_cells_from l : forall a,
  fold_left (fun acc c => match c with Some z => acc + z | None => acc end) l a
  = a + sum_cells l.
Proof.
  unfold sum_cells. induction l as [|[z|] t IH]; intros a; simpl; [lia| |apply IH].
  rewrite IH, (IH z). lia.
Qed.

Lemma sum_cells_cons c l :
  sum_cells (c :: l) = match c with Some z => z | None => 0 end + sum_cells l.
Proof.
  unfold sum_cells at 1. simpl. destruct c as [z|]; rewrite sum_cells_from; lia.
Qed.

Lemma stat_value_es_cell row :
  stat_value "evenStrengthPoints" row = of_cell (es_cell row).
Proof.
  unfold es_cell.
  change (stat_value "evenStrengthPoints" row)
    with (nsub (of_cell (points row))
               (nadd (of_cell (powerPlayPoints row))
                     (of_cell (shorthandedPoints row)))).
  destruct (points row) as [p|], (powerPlayPoints row) as [a|],
    (shorthandedPoints row) as [b|]; simpl; try reflexivity.
  f_equal. unfold Qminus, Qplus, Qopp, inject_Z. simpl. f_equal. lia.
Qed.

Lemma stat_value_column m f :
  In (m, f) COLUMN_METRICS ->
  forall row, stat_value m row = of_cell (f row).
Proof.
  intros H row. simpl in H.
  destruct H as [E|[E|[E|[E|[E|[E|[]]]]]]]; injection E as <- <-;
    try reflexivity.
  apply stat_value_es_cell.
Qed.

Lemma column_metric_cumulative m f :
  In (m, f) COLUMN_METRICS -> In m (METRIC_OPTIONS cumulative).
Proof.
  intros H. simpl in H.
  destruct H as [E|[E|[E|[E|[E|[E|[]]]]]]]; injection E as <- _; simpl; tauto.
Qed.

Lemma sum_es_cells df :
  Forall (fun r => points r <> None /\ powerPlayPoints r <> None
                   /\ shorthandedPoints r <> None) df ->
  sum_cells (map es_cell df)
  = sum_cells (map points df) - sum_cells (map powerPlayPoints df)
    - sum_cells (map shorthandedPoints df).
Proof.
  induction 1 as [|r t (Hp & Ha & Hb) _ IH]; [reflexivity|].
  simpl map. rewrite !sum_cells_cons, IH. unfold es_cell.
  destruct (points r), (powerPlayPoints r), (shorthandedPoints r);
    try contradiction. lia.
Qed.

(** X15.  In cumulative mode each of the six metrics plots the running sum
    of one integer column: at a game whose own cell is present, the sum of
    the cells present up to that game (an absent cell counts 0 there), and
    NaN at a game whose own cell is absent.  So after the last game the
    goals, assists and points series end on the totals of distribution
    mode, and the even-strength points series on its even-strength bucket
    when no points cell is absent. *)
Theorem cumulative_series_are_column_sums
    (log : list Raw.game) (df : list Row) (m name label : string) (i : nat)
    (f : Row -> cell) :
  normalize log = Ok df -> (i < 3)%nat -> In (m, f) COLUMN_METRICS ->
  exists F,
    series cumulative m df name i label = Ok F
    /\ (forall g, (1 <= g <= List.length df)%nat ->
          nth_error (y_final F) (g - 1) = Some (partial_sum (map f df) g))
    /\ (forall z, nth_error (map f df) (List.length df - 1) = Some (Some z) ->
          nth_error (y_final F) (List.length df - 1)
          = Some (Num (inject_Z (sum_cells (map f df))))
          /\ (m = "goals"%string -> sum_cells (map f df) = t_goals (totals df))
          /\ (m = "assists"%string -> sum_cells (map f df) = t_assists (totals df))
          /\ (m = "points"%string -> sum_cells (map f df) = t_points (totals df))
          /\ (m = "evenStrengthPoints"%string ->
              Forall (fun r => points r <> None /\ powerPlayPoints r <> None
                               /\ shorthandedPoints r <> None) df ->
              sum_cells (map f df) = es_points (totals df))).
Proof.
  intros Hnorm Hi Hm.
  destruct (series_defined cumulative m df name i label
              (normalize_numbered log df Hnorm) Hi)
    as (F & HF & _ & _ & _ & _ & _ & _ & _ & _ & Hy & _).
  exists F. split; [exact HF|].
  assert (Hsv : map (stat_value m) df = map of_cell (map f df)).
  { rewrite map_map. apply map_ext. now apply stat_value_column. }
  assert (Hg : forall g, (1 <= g <= List.length df)%nat ->
             nth_error (y_final F) (g - 1) = Some (partial_sum (map f df) g)).
  { intros g Hg. rewrite (Hy g Hg). unfold plotted_at.
    rewrite (plotted_cumulative m _ _ _ _ _ _ (column_metric_cumulative m f Hm)).
    now rewrite Hsv, running_total_of_cells. }
  split; [exact Hg|]. intros z Hz.
  assert (Hn : (1 <= List.length df)%nat).
  { destruct df; [discriminate Hz|simpl; lia]. }
  split.
  - rewrite (Hg (List.length df) ltac:(lia)). unfold partial_sum.
    rewrite Hz. rewrite <- (length_map f) at 1. now rewrite firstn_all.
  - simpl in Hm.
    destruct Hm as [E|[E|[E|[E|[E|[E|[]]]]]]]; injection E as <- <-;
      repeat split; intros H; try discriminate H; try reflexivity.
    intros Hall. now apply sum_es_cells.
Qed.

Lemma cumulative_series_are_column_sums_witness :
  exists F,
    series cumulative "goals" Sample.df "Player" 0 "23-24" = Ok F
    /\ nth_error (y_final F) 10
       = Some (Num (inject_Z (sum_cells (map goals Sample.df)))).
Proof.
  destruct (cumulative_series_are_column_sums Sample.season Sample.df
              "goals" "Player" "23-24" 0 goals eq_refl ltac:(lia)
              ltac:(simpl; tauto)) as (F & HF & _ & H).
  exists F. split; [exact HF|]. exact (proj1 (H 1 eq_refl)).
Defined.


Lemma nonneg_values_skipn l g : nonneg_values l -> nonneg_values (skipn g l).
Proof.
  unfold nonneg_values. revert g.
  induction l as [|x t IH]; intros g H; destruct g; simpl; try assumption.
  apply IH. now inversion H.
Qed.





(* ------------------------------------------------------------------ *)
(** ** Projection mode: the rolling value at game 10, even-strength time *)







Lemma max0_nonneg x : (0 <= max0 x)%Q.
Proof.
  unfold max0. destruct (gt0 x) eqn:E; [apply gt0_spec in E; lra|lra].
Qed.

Lemma nonneg_values_iloc l a b : nonneg_values l -> nonneg_values (iloc a b l).
Proof.
  intros H. unfold iloc. now apply nonneg_values_skipn, nonneg_values_firstn.
Qed.

(** X18.  The even-strength time on ice of projection mode is never
    negative, neither the season average nor the rolling average, whatever
    the clock strings of the feed are: the per-game value is floored at 0
    before it is summed. *)
Theorem even_strength_time_never_negative
    (log : list Raw.game) (df : list Row) (name label : string) (i : nat) :
  normalize log = Ok df -> (i < 3)%nat ->
  exists F roll,
    series projection "esToi" df name i label = Ok F
    /\ y_rolling F = Some roll
    /\ (forall g, (1 <= g <= List.length df)%nat ->
          exists q, nth_error (y_final F) (g - 1) = Some (Num q) /\ (0 <= q)%Q)
    /\ (forall g, (10 <= g <= List.length df)%nat ->
          exists r, nth_error roll (g - 1) = Some (Some r) /\ (0 <= r)%Q).
Proof.
  intros Hnorm Hi.
  destruct (series_defined projection "esToi" df name i label
              (normalize_numbered log df Hnorm) Hi)
    as (F & HF & _ & _ & _ & _ & _ & _ & _ & _ & Hy & _ & Hroll).
  destruct (Hroll eq_refl) as (roll & Hr & _ & Hrv).
  exists F, roll. split; [exact HF|]. split; [exact Hr|].
  assert (Hpos : nonneg_values (map (stat_value "esToi") df)).
  { apply Forall_forall. intros x Hx.
    apply in_map_iff in Hx as (row & <- & _). apply max0_nonneg. }
  split.
  - intros g Hg. rewrite (Hy g Hg). unfold plotted_at.
    rewrite plotted_average by (left; simpl; tauto).
    destruct (nth_error df (g - 1)) as [row|] eqn:Erow;
      [|apply nth_error_None in Erow; lia].
    rewrite (running_total_present _ g
               (max0 (toi_val row - pp_toi_val row - sh_toi_val row)))
      by (rewrite nth_error_map, Erow; reflexivity).
    eexists. split; [reflexivity|].
    apply Qle_shift_div_l; [unfold Qlt; simpl; lia|].
    rewrite Qmult_0_l. now apply sum_skipna_nonneg, nonneg_values_firstn.
  - intros g Hg. rewrite (Hrv g ltac:(lia)).
    replace (g <? 10)%nat with false by (symmetry; apply Nat.ltb_ge; lia).
    unfold rolled_at. rewrite rolled_average by (simpl; tauto).
    eexists. split; [reflexivity|].
    assert (0 <= window_sum (map (stat_value "esToi") df) g)%Q
      by (apply sum_skipna_nonneg, nonneg_values_iloc, Hpos).
    apply Qle_shift_div_l; [reflexivity|]. now rewrite Qmult_0_l.
Qed.

Lemma even_strength_time_never_negative_witness :
  exists F roll,
    series projection "esToi" Sample.df "Player" 0 "23-24" = Ok F
    /\ y_rolling F = Some roll
    /\ exists q, nth_error (y_final F) 2 = Some (Num q) /\ (0 <= q)%Q.
Proof.
  destruct (even_strength_time_never_negative Sample.season Sample.df
              "Player" "23-24" 0 eq_refl ltac:(lia)) as (F & roll & HF & HR & H & _).
  exists F, roll. split; [exact HF|]. split; [exact HR|].
  apply (H 3%nat). simpl. lia.
Defined.

(* ------------------------------------------------------------------ *)
(** ** A whole run *)










(* ------------------------------------------------------------------ *)
(** ** Failed requests *)

Lemma process_players_unanswered mode_key m get players : forall i,
  (forall p, In p players -> get (id p) (selected_season p) = None) ->
  process_players mode_key m get i players = Ok ([], []).
Proof.
  induction players as [|p t IH]; intros i H; [reflexivity|].
  cbn [process_players]. unfold process_selection at 1.
  rewrite (H p (or_introl eq_refl)). cbn [bind].
  rewrite (IH (S i) (fun q Hq => H q (or_intror Hq))). reflexivity.
Qed.

(** X20.  A request that fails is contained.  When the request for the
    player's details fails, [add_player] shows its error notice and leaves
    the list as it was; when the requests for all game logs fail, a run in a
    series mode ends with the warning, whatever the number of selections. *)
Theorem failed_requests_are_contained
    (fail : forall A : Type, string -> result A) :
  (forall (A : Type) (url : string), exists e, fail A url = Raise e) ->
  (forall players player_data pid now,
      (List.length players < 3)%nat ->
      playerId player_data = Some pid ->
      add_player players player_data (get_player_details (fail Details)) now
      = (players, Ok (Some (error "Could not fetch player details."))))
  /\ (forall mode_key m players,
        mode_key <> distribution -> players <> [] ->
        launch_analysis mode_key m (get_game_log (fail GameLogResponse)) players
        = Ok (Warning "No game data available for selected parameters.")).
Proof.
  intros Hfail. split.
  - intros players player_data pid now Hlen Hpid. unfold add_player.
    rewrite (proj2 (Nat.leb_gt _ _) Hlen), Hpid. cbn [item].
    unfold get_player_details.
    match goal with |- context [fail ?A ?u] => destruct (Hfail A u) as [e ->] end.
    reflexivity.
  - intros mode_key m players Hmode Hne. unfold launch_analysis.
    destruct players as [|p t]; [contradiction|].
    rewrite process_players_unanswered.
    + cbn [bind]. now destruct mode_key.
    + intros q _. unfold get_game_log.
      match goal with |- context [fail ?A ?u] => destruct (Hfail A u) as [e ->] end.
      reflexivity.
Qed.

Lemma failed_requests_are_contained_witness :
  launch_analysis cumulative "points"
    (get_game_log ((fun A _ => Raise ValueError) GameLogResponse))
    [Faulty.player; Faulty.player; Faulty.player; Faulty.player]
  = Ok (Warning "No game data available for selected parameters.").
Proof.
  apply (proj2 (failed_requests_are_contained (fun A _ => Raise ValueError)
                  (fun A url => ex_intro _ ValueError eq_refl)));
    discriminate.
Defined.

(* ------------------------------------------------------------------ *)
(** ** What the normalization defaults *)

Lemma normalize_row_origin log df row :
  normalize log = Ok df -> In row df ->
  exists r, In r log /\ unnumbered row = row_of log r 0.
Proof.
  intros H Hin. apply normalize_inv in H as (_ & _ & H).
  rewrite normalize_rows_of in H. injection H as <-.
  apply in_map_iff in Hin as ([k r] & <- & Hkr).
  apply in_combine_r in Hkr. exists r. split; [|reflexivity].
  eapply Permutation_in; [apply sort_values_perm|exact Hkr].
Qed.

Lemma minutes_of_default : (minutes_of (PyStr "00:00") == 0)%Q.
Proof. reflexivity. Qed.

(** X21.  Every row of a normalized sequence comes from a record of the
    log, with the record's date.  A clock the record does not have counts
    as 0 minutes (total, power-play and shorthanded).  A numeric field is 0
    when no record of the log has it, the record's own value when the
    record has it, and absent (NaN) when other records have it and this
    one does not. *)
Theorem normalize_defaults (log : list Raw.game) (df : list Row) (row : Row) :
  normalize log = Ok df -> In row df ->
  exists r,
    In r log
    /\ date_obj row = Raw.gameDate r
    /\ (Raw.toi r = None -> toi_val row = 0%Q)
    /\ (Raw.powerPlayToi r = None -> (pp_toi_val row == 0)%Q)
    /\ (Raw.shorthandedToi r = None -> (sh_toi_val row == 0)%Q)
    /\ forall rf f, In (rf, f) NUMERIC_COLUMNS ->
         (has_column rf log = false -> f row = Some 0)
         /\ (forall z, rf r = Some z -> f row = Some z)
         /\ (has_column rf log = true -> rf r = None -> f row = None).
Proof.
  intros H Hin. destruct (normalize_row_origin log df row H Hin) as (r & Hr & E).
  exists r. split; [exact Hr|].
  assert (Hd : date_obj row = date_obj (row_of log r 0))
    by (rewrite <- E; reflexivity).
  assert (Ht : toi_val row = toi_val (row_of log r 0))
    by (rewrite <- E; reflexivity).
  assert (Hpp : pp_toi_val row = pp_toi_val (row_of log r 0))
    by (rewrite <- E; reflexivity).
  assert (Hsh : sh_toi_val row = sh_toi_val (row_of log r 0))
    by (rewrite <- E; reflexivity).
  split; [exact Hd|]. split; [|split; [|split]].
  - intros Hn. rewrite Ht. simpl. now rewrite Hn.
  - intros Hn. rewrite Hpp. simpl. unfold clock_or_default. rewrite Hn.
    destruct (has_column Raw.powerPlayToi log); reflexivity.
  - intros Hn. rewrite Hsh. simpl. unfold clock_or_default. rewrite Hn.
    destruct (has_column Raw.shorthandedToi log); reflexivity.
  - intros rf f Hf.
    assert (Hcell : f row = numeric_or_zero rf log r).
    { simpl in Hf.
      destruct Hf as [P|[P|[P|[P|[P|[P|[P|[P|[P|[]]]]]]]]]];
        injection P as <- <-;
        match goal with |- ?g row = _ =>
          change (g row) with (g (unnumbered row)) end;
        rewrite E; reflexivity. }
    rewrite Hcell. unfold numeric_or_zero. split; [|split].
    + intros ->. reflexivity.
    + intros z Hz.
      assert (has_column rf log = true) as ->; [|exact Hz].
      apply existsb_exists. exists r. split; [exact Hr|]. now rewrite Hz.
    + intros -> Hn. exact Hn.
Qed.

Lemma normalize_defaults_witness :
  exists r,
    In r Faulty.gap
    /\ date_obj (nth 1 (Sample.frame_of Faulty.gap) (row_of [] (Faulty.dated 0) 0))
       = Raw.gameDate r
    /\ (Raw.powerPlayToi r = None ->
        (pp_toi_val (nth 1 (Sample.frame_of Faulty.gap)
                       (row_of [] (Faulty.dated 0) 0)) == 0)%Q).
Proof.
  destruct (normalize_defaults Faulty.gap (Sample.frame_of Faulty.gap)
              (nth 1 (Sample.frame_of Faulty.gap) (row_of [] (Faulty.dated 0) 0))
              eq_refl ltac:(right; left; reflexivity))
    as (r & Hr & Hd & _ & Hpp & _).
  exists r. split; [exact Hr|]. split; [exact Hd|exact Hpp].
Defined.
